(** * Typesetter: line breaking, chapter detection, pagination, justification

    A shallow embedding of the TypeScript sources
      - [createParagraphs.ts] (text normaliser, line breaker, chapter indexer),
      - [drawText.ts]         (pagination engine and justification renderer),
      - [pageNumbers.ts]      (page-number overlay),
      - [index.ts]            (the [createPDF] driver),
      - [createParagraphs.js] of the earlier build ([splitParagraphIntoLines]
        and [getNewParagraphIndices]),
    together with the properties of the layout engine.

    Modelling conventions.
      - JavaScript strings are [string]s (lists of 8-bit characters); the
        character classes [\s], [\d], [.] and [toUpperCase] are the ASCII
        ones.
      - JavaScript numbers that carry lengths (widths, heights, coordinates)
        are exact rationals [Q]; counters and indices are [nat] or [Z].
        The source computes lengths in doubles, which agree with the
        rationals wherever every operation is exact; the general
        properties of the vertical layout are stated on whole-number
        geometry ([ExactLayout]), where this is the case.
      - Arrays mutated in place ([lines], [isLastLine], [isFirstLine]) are
        threaded through explicitly; indexing out of range reads
        [undefined], which is falsy, hence the [false] / empty defaults.
      - A PDF document is the list of its pages in page order, a page is the
        list of drawing operations issued on it, and a [PDFPage] reference
        is the index of the page in its document. *)

From Stdlib Require Import List Bool Arith ZArith QArith Qfield Lia Lqa.
From Stdlib Require Import Ascii String DecimalString.
Import ListNotations.

Close Scope Q_scope.
Open Scope string_scope.
Open Scope list_scope.
Open Scope nat_scope.

(* ================================================================== *)
(** ** JavaScript string primitives used by the sources *)
(* ================================================================== *)

Module Js.

(** [\s] restricted to ASCII: tab, LF, VT, FF, CR and space. *)
Definition isWhitespace (c : ascii) : bool :=
  let n := nat_of_ascii c in
  ((9 <=? n) && (n <=? 13)) || (n =? 32).

(** [\d] *)
Definition isDigit (c : ascii) : bool :=
  let n := nat_of_ascii c in (48 <=? n) && (n <=? 57).

(** Line terminators, which [.] does not match (ASCII: LF and CR). *)
Definition isLineTerminator (c : ascii) : bool :=
  let n := nat_of_ascii c in (n =? 10) || (n =? 13).

(** Truthiness of a string: non-empty. *)
Definition truthy (s : string) : bool :=
  match s with EmptyString => false | String _ _ => true end.

(** [s.split(sep)] for a one-character separator; never returns []. *)
Fixpoint split (sep : ascii) (s : string) : list string :=
  match s with
  | EmptyString => [EmptyString]
  | String c rest =>
      if Ascii.eqb c sep then EmptyString :: split sep rest
      else match split sep rest with
           | w :: ws => String c w :: ws
           | [] => [String c EmptyString]
           end
  end.

(** [ws.join(' ')] *)
Definition join (ws : list string) : string := String.concat " " ws.

Fixpoint trimStart (s : string) : string :=
  match s with
  | EmptyString => EmptyString
  | String c rest => if isWhitespace c then trimStart rest else s
  end.

Fixpoint trimEnd (s : string) : string :=
  match s with
  | EmptyString => EmptyString
  | String c rest =>
      let rest' := trimEnd rest in
      if isWhitespace c && negb (truthy rest') then EmptyString
      else String c rest'
  end.

(** [s.trim()] *)
Definition trim (s : string) : string := trimEnd (trimStart s).

(** [s.endsWith(c)] for a one-character argument. *)
Fixpoint endsWith (c : ascii) (s : string) : bool :=
  match s with
  | EmptyString => false
  | String d EmptyString => Ascii.eqb d c
  | String _ rest => endsWith c rest
  end.

Definition upperChar (c : ascii) : ascii :=
  let n := nat_of_ascii c in
  if (97 <=? n) && (n <=? 122) then ascii_of_nat (n - 32) else c.

(** [s.toUpperCase()] *)
Fixpoint toUpperCase (s : string) : string :=
  match s with
  | EmptyString => EmptyString
  | String c rest => String (upperChar c) (toUpperCase rest)
  end.

(** [s.split(/\s+/)] *)
Fixpoint splitWs (inGap : bool) (s : string) : list string :=
  match s with
  | EmptyString => [EmptyString]
  | String c rest =>
      if isWhitespace c then
        if inGap then splitWs true rest
        else EmptyString :: splitWs true rest
      else match splitWs false rest with
           | w :: ws => String c w :: ws
           | [] => [String c EmptyString]
           end
  end.

Definition splitWhitespace (s : string) : list string := splitWs false s.

(** [arr.includes(i)] on an array of indices. *)
Definition includes (xs : list nat) (i : nat) : bool :=
  existsb (Nat.eqb i) xs.

(** [arr.pop()]: the element removed; [undefined] (falsy) on []. *)
Definition popped (ws : list string) : string := last ws EmptyString.

(** [arr[i] = v] for [i] in range. *)
Fixpoint assign {A} (i : nat) (v : A) (xs : list A) : list A :=
  match xs, i with
  | [], _ => []
  | _ :: t, O => v :: t
  | h :: t, S j => h :: assign j v t
  end.

(** Decimal rendering of a page number, as the template literal does. *)
Definition numberToString (n : nat) : string :=
  NilZero.string_of_uint (Nat.to_uint n).

End Js.

(* ================================================================== *)
(** ** Regular expressions of the sources, as matchers *)
(* ================================================================== *)

Module Regex.
Import Js.

(** Strip a literal prefix. *)
Fixpoint stripPrefix (p s : string) : option string :=
  match p, s with
  | EmptyString, _ => Some s
  | String a p', String b s' =>
      if Ascii.eqb a b then stripPrefix p' s' else None
  | String _ _, EmptyString => None
  end.

(** The same, ignoring ASCII case (the [i] flag). *)
Fixpoint stripPrefixCI (p s : string) : option string :=
  match p, s with
  | EmptyString, _ => Some s
  | String a p', String b s' =>
      if Ascii.eqb (upperChar a) (upperChar b) then stripPrefixCI p' s'
      else None
  | String _ _, EmptyString => None
  end.

(** Greedy [\d*]: the digits taken and the remainder. *)
Fixpoint spanDigits (s : string) : string * string :=
  match s with
  | String c rest =>
      if isDigit c then
        let (ds, r) := spanDigits rest in (String c ds, r)
      else (EmptyString, s)
  | EmptyString => (EmptyString, EmptyString)
  end.

(** [\d+X] anchored at the start of [s], where the literal [X] does not
    begin with a digit: the greedy run of digits is the only candidate.
    Returns the digits and what follows [X]. *)
Definition digitsThen (lit s : string) : option (string * string) :=
  let (ds, r) := spanDigits s in
  if truthy ds then
    match stripPrefix lit r with
    | Some r' => Some (ds, r')
    | None => None
    end
  else None.

(** [^CHAPTER \d+\. ] : the digits and the text after the match. *)
Definition chapterPrefix (s : string) : option (string * string) :=
  match stripPrefix "CHAPTER " s with
  | Some r => digitsThen ". " r
  | None => None
  end.

(** [/^CHAPTER \d+\. /] as used by [line.match(...)] in a condition. *)
Definition matchesChapterPrefix (s : string) : bool :=
  match chapterPrefix s with Some _ => true | None => false end.

(** [/^CHAPTER \d+\./i.test(s)] *)
Definition testChapterTitle (s : string) : bool :=
  match stripPrefixCI "CHAPTER " s with
  | Some r =>
      let (ds, r') := spanDigits r in
      truthy ds && match r' with String "." _ => true | _ => false end
  | None => false
  end.

(** [(.+)\.] anchored at the start of [s], greedy: the captured group is
    the longest non-empty, terminator-free prefix followed by a period. *)
Fixpoint greedyTitle (s : string) : option string :=
  match s with
  | EmptyString => None
  | String c rest =>
      if isLineTerminator c then None
      else match greedyTitle rest with
           | Some t => Some (String c t)
           | None =>
               match rest with
               | String "." _ => Some (String c EmptyString)
               | _ => None
               end
           end
  end.

(** [/^(CHAPTER \d+\. )(.+)\./] : groups 1 and 2. *)
Definition chapterMatch (s : string) : option (string * string) :=
  match chapterPrefix s with
  | Some (ds, r) =>
      match greedyTitle r with
      | Some title => Some (("CHAPTER " ++ ds ++ ". ")%string, title)
      | None => None
      end
  | None => None
  end.

End Regex.

(* ================================================================== *)
(** ** Shared data: fonts, styles, the line stream *)
(* ================================================================== *)

(** The font capability the layout code uses: [font.widthOfTextAtSize]. *)
Record PDFFont := { widthOfTextAtSize : string -> Q -> Q }.

(** [textStyles.ts] *)
Module globalStyles.
Definition margin : Q := 100%Q.
Definition parIndentWidth : Q := 18%Q.
Definition paragraphBreakHeight : Q := 10%Q.
End globalStyles.

Module bodyTextStyle.
Definition size : Q := 14%Q.
Definition lineHeight : Q := 20%Q.
End bodyTextStyle.

Module chapterTitleStyle.
Definition size : Q := 18%Q.
Definition lineHeight : Q := 24%Q.
End chapterTitleStyle.

(** [a < b] and [a <= b] on numbers, as booleans. *)
Definition Qleb (a b : Q) : bool := Qle_bool a b.
Definition Qltb (a b : Q) : bool := negb (Qle_bool b a).

(** The three parallel arrays built by the line breaker. *)
Record LineStream := {
  lines : list string;
  isLastLine : list bool;
  isFirstLine : list bool
}.

(* ================================================================== *)
(** ** createParagraphs.ts *)
(* ================================================================== *)

Module CreateParagraphs.
Import Js Regex.

Definition splitTextIntoParagraphs (textContent : string) : list string :=
  split "010"%char textContent.

(** [text.replace(/\u2014(?!\s)/g, ...)] on UTF-8 text: the em dash is
    the byte sequence E2 80 94. *)
Fixpoint insertSpaceAfterDash (text : string) : string :=
  match text with
  | EmptyString => EmptyString
  | String c rest =>
      match c, rest with
      | "226"%char, String "128"%char (String "148"%char rest') =>
          let followedByWhitespace :=
            match rest' with
            | String d _ => isWhitespace d
            | EmptyString => false
            end in
          let tail := insertSpaceAfterDash rest' in
          String "226" (String "128" (String "148"
            (if followedByWhitespace then tail else String " " tail)))
      | _, _ => String c (insertSpaceAfterDash rest)
      end
  end.

Fixpoint chapterIndicesFrom (index : nat) (ls : list string) : list nat :=
  match ls with
  | [] => []
  | line :: rest =>
      if matchesChapterPrefix line
      then index :: chapterIndicesFrom (S index) rest
      else chapterIndicesFrom (S index) rest
  end.

Definition getNewChapterIndices (ls : list string) : list nat :=
  chapterIndicesFrom 0 ls.

Definition capitalizeChapterTitle (paragraph : string) : string :=
  match chapterMatch paragraph with
  | Some (chapterNumber, title) =>
      let chapterTitle := toUpperCase title in
      (chapterNumber ++ chapterTitle ++ ".")%string
  | None => paragraph
  end.

(** The loop state of one paragraph inside [createLines]: the arrays
    being filled, the line buffer and the first-line flag. *)
Record Wrap := {
  out : LineStream;
  currentLine : string;
  isFirstLineOfParagraph : bool
}.

Definition push (text : string) (last first : bool) (o : LineStream)
  : LineStream :=
  {| lines := lines o ++ [text];
     isLastLine := isLastLine o ++ [last];
     isFirstLine := isFirstLine o ++ [first] |}.

Definition emptyStream : LineStream :=
  {| lines := []; isLastLine := []; isFirstLine := [] |}.

Section LineBreaker.
Variable font : PDFFont.
Variable fontSize : Q.
Variable textMaxWidth : Q.

Definition addWordToLine (word : string) (maxWidth : Q) (w : Wrap)
  : Wrap :=
  let potentialLine :=
    (currentLine w ++ (if truthy (currentLine w) then " " else EmptyString)
       ++ word)%string in
  let potentialLineWidth := widthOfTextAtSize font potentialLine fontSize in
  if Qleb potentialLineWidth maxWidth then
    {| out := out w; currentLine := potentialLine;
       isFirstLineOfParagraph := isFirstLineOfParagraph w |}
  else
    {| out := push (trim (currentLine w)) false
                (isFirstLineOfParagraph w) (out w);
       currentLine := word;
       isFirstLineOfParagraph := false |}.

Definition processLastLine (w : Wrap) : LineStream :=
  push (trim (currentLine w)) true (isFirstLineOfParagraph w) (out w).

(** The [for] loop over the words of one paragraph. *)
Definition addWord (w : Wrap) (word : string) : Wrap :=
  let maxWidth :=
    if isFirstLineOfParagraph w
    then (textMaxWidth - globalStyles.parIndentWidth)%Q
    else textMaxWidth in
  addWordToLine word maxWidth w.

(** The body of [paragraphsAsWordArrays.forEach]. *)
Definition wrapParagraph (o : LineStream) (wordArray : list string)
  : LineStream :=
  let w := fold_left addWord wordArray
             {| out := o; currentLine := EmptyString;
                isFirstLineOfParagraph := true |} in
  if 0 <? String.length (trim (currentLine w))
  then processLastLine w
  else out w.

(** One iteration of the loop of [handleOrphans], at index [i]. *)
Definition orphanStep (isLast : list bool) (i : nat) (ls : list string)
  : list string :=
  if nth i isLast false
     && (List.length (split " " (nth i ls EmptyString)) =? 1)
  then
    let previousLineWords := split " " (nth (i - 1) ls EmptyString) in
    let lastWord := popped previousLineWords in
    if truthy lastWord then
      let ls1 := assign (i - 1) (join (removelast previousLineWords)) ls in
      assign i (lastWord ++ " " ++ nth i ls1 EmptyString)%string ls1
    else ls
  else ls.

Fixpoint orphanLoop (isLast : list bool) (n i : nat) (ls : list string)
  : list string :=
  match n with
  | O => ls
  | S n' => orphanLoop isLast n' (S i) (orphanStep isLast i ls)
  end.

Definition handleOrphans (ls : list string) (isLast : list bool)
  : list string :=
  if List.length ls <? 2 then ls
  else orphanLoop isLast (List.length ls - 1) 1 ls.

(** The line stream before orphan correction. *)
Definition wrapAll (paragraphsAsWordArrays : list (list string))
  : LineStream :=
  fold_left wrapParagraph paragraphsAsWordArrays emptyStream.

Definition createLines (paragraphsAsWordArrays : list (list string))
  : LineStream :=
  let o := wrapAll paragraphsAsWordArrays in
  {| lines := handleOrphans (lines o) (isLastLine o);
     isLastLine := isLastLine o;
     isFirstLine := isFirstLine o |}.

End LineBreaker.

End CreateParagraphs.

(* ================================================================== *)
(** ** Documents, pages and drawing operations *)
(* ================================================================== *)

(** What [page.drawText] and [page.drawRectangle] leave on a page (font
    and colour are fixed throughout and not recorded). *)
Inductive PageOp :=
| DrawText (text : string) (x y size : Q)
| DrawRectangle (x y width height : Q).

Definition PDFPage := list PageOp.
Definition PDFDocument := list PDFPage.

(** Issue [ops] on page number [p] of the document. *)
Definition drawOn (p : nat) (ops : list PageOp) (d : PDFDocument)
  : PDFDocument :=
  Js.assign p (nth p d [] ++ ops) d.

(* ================================================================== *)
(** ** drawText.ts *)
(* ================================================================== *)

Module DrawText.
Import Js Regex.

(** The mutable variables of [drawTextLines], together with the
    document that [page.doc] reaches. *)
Record Layout := {
  doc : PDFDocument;
  page : nat;
  yPos : Q;
  remainingSpace : Q;
  lineIndex : nat;
  colonEncountered : bool;
  afterColonLineIndex : Z;
  lastLineOfParagraph : Z;
  remainingLinesInParagraph : Z
}.

Definition setRemainingLines (n : Z) (st : Layout) : Layout :=
  {| doc := doc st; page := page st; yPos := yPos st;
     remainingSpace := remainingSpace st; lineIndex := lineIndex st;
     colonEncountered := colonEncountered st;
     afterColonLineIndex := afterColonLineIndex st;
     lastLineOfParagraph := lastLineOfParagraph st;
     remainingLinesInParagraph := n |}.

(** [yPos -= h; remainingSpace -= h] *)
Definition advance (h : Q) (st : Layout) : Layout :=
  {| doc := doc st; page := page st; yPos := (yPos st - h)%Q;
     remainingSpace := (remainingSpace st - h)%Q;
     lineIndex := lineIndex st;
     colonEncountered := colonEncountered st;
     afterColonLineIndex := afterColonLineIndex st;
     lastLineOfParagraph := lastLineOfParagraph st;
     remainingLinesInParagraph := remainingLinesInParagraph st |}.

(** [colonEncountered = true; afterColonLineIndex = i] *)
Definition markColon (i : nat) (st : Layout) : Layout :=
  {| doc := doc st; page := page st; yPos := yPos st;
     remainingSpace := remainingSpace st; lineIndex := lineIndex st;
     colonEncountered := true;
     afterColonLineIndex := Z.of_nat i;
     lastLineOfParagraph := lastLineOfParagraph st;
     remainingLinesInParagraph := remainingLinesInParagraph st |}.

(** [colonEncountered = false; afterColonLineIndex = -1;
     lastLineOfParagraph = -1] *)
Definition clearColon (st : Layout) : Layout :=
  {| doc := doc st; page := page st; yPos := yPos st;
     remainingSpace := remainingSpace st; lineIndex := lineIndex st;
     colonEncountered := false;
     afterColonLineIndex := (-1)%Z;
     lastLineOfParagraph := (-1)%Z;
     remainingLinesInParagraph := remainingLinesInParagraph st |}.

Definition setLastLineOfParagraph (i : nat) (st : Layout) : Layout :=
  {| doc := doc st; page := page st; yPos := yPos st;
     remainingSpace := remainingSpace st; lineIndex := lineIndex st;
     colonEncountered := colonEncountered st;
     afterColonLineIndex := afterColonLineIndex st;
     lastLineOfParagraph := Z.of_nat i;
     remainingLinesInParagraph := remainingLinesInParagraph st |}.

Definition draw (ops : list PageOp) (st : Layout) : Layout :=
  {| doc := drawOn (page st) ops (doc st); page := page st;
     yPos := yPos st;
     remainingSpace := remainingSpace st; lineIndex := lineIndex st;
     colonEncountered := colonEncountered st;
     afterColonLineIndex := afterColonLineIndex st;
     lastLineOfParagraph := lastLineOfParagraph st;
     remainingLinesInParagraph := remainingLinesInParagraph st |}.

Definition nextLineIndex (st : Layout) : Layout :=
  {| doc := doc st; page := page st; yPos := yPos st;
     remainingSpace := remainingSpace st; lineIndex := S (lineIndex st);
     colonEncountered := colonEncountered st;
     afterColonLineIndex := afterColonLineIndex st;
     lastLineOfParagraph := lastLineOfParagraph st;
     remainingLinesInParagraph := remainingLinesInParagraph st |}.

(* ---------------------------------------------------------------- *)
(** *** drawJustifiedLine *)

Section Justify.
Variable margin : Q.
Variable yPosition : Q.
Variable fontSize : Q.
Variable chapterTitleFontSize : Q.
Variable font : PDFFont.
Variable textMaxWidth : Q.

Definition indentationWidth : Q := 18%Q.

(** The [for] loop over [words]: one [drawText] per word. *)
Fixpoint drawWords (currentFontSize spaceWidth additionalSpaceWidth : Q)
    (words : list string) (currentXPos : Q) : list PageOp :=
  match words with
  | [] => []
  | word :: rest =>
      let wordWidth := widthOfTextAtSize font word currentFontSize in
      DrawText word currentXPos yPosition currentFontSize
      :: drawWords currentFontSize spaceWidth additionalSpaceWidth rest
           (currentXPos + (wordWidth + spaceWidth + additionalSpaceWidth))%Q
  end.

Definition lineXPos (isFirstLineOfParagraph isChapterTitle : bool) : Q :=
  if isFirstLineOfParagraph && negb isChapterTitle
  then (margin + indentationWidth)%Q else margin.

Definition availableWidth (isFirstLineOfParagraph isChapterTitle : bool)
  : Q :=
  if isFirstLineOfParagraph && negb isChapterTitle
  then (textMaxWidth - indentationWidth)%Q else textMaxWidth.

Definition currentFontSizeOf (isChapterTitle : bool) : Q :=
  if isChapterTitle then chapterTitleFontSize else fontSize.

Definition additionalSpaceWidthOf (line : string)
    (isFirstLineOfParagraph isChapterTitle : bool) : Q :=
  let words := split " " line in
  let lineWidth := widthOfTextAtSize font line fontSize in
  let extraSpace :=
    (availableWidth isFirstLineOfParagraph isChapterTitle - lineWidth)%Q in
  let numSpaces := (Z.of_nat (List.length words) - 1)%Z in
  if (0 <? numSpaces)%Z then (extraSpace / inject_Z numSpaces)%Q else 0%Q.

Definition drawJustifiedLine (line : string)
    (isLast isFirstLineOfParagraph isChapterTitle : bool)
  : list PageOp :=
  let words := split " " line in
  let xPos := lineXPos isFirstLineOfParagraph isChapterTitle in
  let currentFontSize := currentFontSizeOf isChapterTitle in
  if isLast then
    [DrawText line xPos yPosition currentFontSize]
  else
    let spaceWidth := widthOfTextAtSize font " " fontSize in
    let additionalSpaceWidth :=
      additionalSpaceWidthOf line isFirstLineOfParagraph isChapterTitle in
    drawWords currentFontSize spaceWidth additionalSpaceWidth words xPos.

End Justify.

(* ---------------------------------------------------------------- *)
(** *** drawTextLines *)

Section Pagination.
Variable lines : list string.
Variable margin : Q.
Variable pageHeight : Q.
Variable fontSize : Q.
Variable chapterTitleFontSize : Q.
Variable font : PDFFont.
Variable lineHeight : Q.
Variable paragraphBreakHeight : Q.
Variable textMaxWidth : Q.
Variable newChapterIndices : list nat.
Variable isLastLine : list bool.
Variable isFirstLine : list bool.

Definition startNewPage (st : Layout) : Layout :=
  {| doc := doc st ++ [[]]; page := List.length (doc st);
     yPos := (pageHeight - margin)%Q;
     remainingSpace := (pageHeight - margin - margin)%Q;
     lineIndex := lineIndex st;
     colonEncountered := colonEncountered st;
     afterColonLineIndex := afterColonLineIndex st;
     lastLineOfParagraph := lastLineOfParagraph st;
     remainingLinesInParagraph := remainingLinesInParagraph st |}.

(** The loop of [calculateRemainingLinesInParagraph], from [j]. *)
Fixpoint scanForLast (fuel j startIndex : nat) : Z :=
  match fuel with
  | O => 0%Z
  | S fuel' =>
      if nth j isLastLine false
      then Z.of_nat (j - startIndex + 1)
      else scanForLast fuel' (S j) startIndex
  end.

Definition calculateRemainingLinesInParagraph (startIndex : nat) : Z :=
  scanForLast (List.length lines - startIndex) startIndex startIndex.

Definition isChapterTitleAt (i : nat) (line : string) : bool :=
  includes newChapterIndices i && testChapterTitle (trim line).

(** Start a new page for chapter titles or new chapters. *)
Definition chapterBreak (i : nat) (line : string) (st : Layout)
  : Layout :=
  if isChapterTitleAt i line || includes newChapterIndices (lineIndex st)
  then startNewPage st else st.

(** Calculate remaining lines in the paragraph. *)
Definition lookahead (i : nat) (st : Layout) : Layout :=
  if nth i isFirstLine false
  then setRemainingLines (calculateRemainingLinesInParagraph i) st
  else st.

Definition orphanCondition (st : Layout) : bool :=
  (remainingLinesInParagraph st <=? 3)%Z
  && Qltb (remainingSpace st)
          (inject_Z (remainingLinesInParagraph st) * lineHeight)%Q.

(** Prevent orphans at the start of the page. *)
Definition preventOrphans (st : Layout) : Layout :=
  if orphanCondition st then startNewPage st else st.

(** Prevent widows at the end of the page. *)
Definition preventWidows (i : nat) (st : Layout) : Layout :=
  if nth i isFirstLine false
     && Qltb (remainingSpace st) (3 * lineHeight)%Q
     && (3 <? remainingLinesInParagraph st)%Z
  then startNewPage st else st.

(** Ensure there is sufficient space on the current page. *)
Definition ensureSpace (st : Layout) : Layout :=
  if Qltb (remainingSpace st) lineHeight then startNewPage st else st.

(** All page-break decisions taken before line [i] is placed. *)
Definition pageBreaks (i : nat) (line : string) (st : Layout) : Layout :=
  ensureSpace
    (preventWidows i (preventOrphans (lookahead i (chapterBreak i line st)))).

(** Handle empty lines and paragraph breaks. *)
Definition paragraphBreak (st : Layout) : Layout :=
  let st := advance paragraphBreakHeight st in
  if colonEncountered st && (0 <=? lastLineOfParagraph st)%Z
  then clearColon (advance lineHeight st)
  else st.

(** Draw the line, then the colon and chapter-title spacing. *)
Definition drawLine (i : nat) (line : string) (st : Layout) : Layout :=
  let isChapterTitle := isChapterTitleAt i line in
  let st :=
    draw (drawJustifiedLine margin (yPos st) fontSize chapterTitleFontSize
            font textMaxWidth line (nth i isLastLine false)
            (nth i isFirstLine false) isChapterTitle) st in
  let st := advance lineHeight st in
  let st := setRemainingLines (remainingLinesInParagraph st - 1)%Z st in
  let st :=
    if endsWith ":" line then markColon i (advance lineHeight st)
    else st in
  let st :=
    if nth i isLastLine false then setLastLineOfParagraph i st else st in
  let st :=
    if colonEncountered st
       && (afterColonLineIndex st <? lastLineOfParagraph st)%Z
    then clearColon (advance lineHeight st)
    else st in
  if isChapterTitle then advance lineHeight st else st.

Definition placeLine (i : nat) (line : string) (st : Layout) : Layout :=
  if String.eqb line EmptyString then paragraphBreak st else drawLine i line st.

(** The body of [lines.forEach((line, i) => ...)]. *)
Definition processLine (i : nat) (line : string) (st : Layout) : Layout :=
  nextLineIndex (placeLine i line (pageBreaks i line st)).

(** [forEach] over the lines [ls], the first of which has index [i]. *)
Fixpoint drawFrom (i : nat) (ls : list string) (st : Layout) : Layout :=
  match ls with
  | [] => st
  | line :: rest => drawFrom (S i) rest (processLine i line st)
  end.

Definition initialLayout (d : PDFDocument) (p : nat) : Layout :=
  {| doc := d; page := p;
     yPos := (pageHeight - margin)%Q;
     remainingSpace := (pageHeight - margin - margin)%Q;
     lineIndex := 0;
     colonEncountered := false;
     afterColonLineIndex := (-1)%Z;
     lastLineOfParagraph := (-1)%Z;
     remainingLinesInParagraph := 0%Z |}.

(** [drawTextLines]: the layout reached after the last line; its [page]
    is the returned page. *)
Definition drawTextLines (d : PDFDocument) (p : nat) : Layout :=
  drawFrom 0 lines (initialLayout d p).

End Pagination.

End DrawText.

(* ================================================================== *)
(** ** pageNumbers.ts *)
(* ================================================================== *)

Module PageNumbers.
Import Js.

Section Overlay.
Variable pageNumberFont : PDFFont.
(** [pages[i].getSize().width], the same for every page of a document
    built by [addPage()]. *)
Variable width : Q.

Definition pageNumberFontSize : Q := 10%Q.
Definition pageNumberMargin : Q := (globalStyles.margin / (125 # 100))%Q.

(** The two drawing calls of one iteration of the loop. *)
Definition stamp (i : nat) : list PageOp :=
  let pageNumber := i + 1 in
  let pageNumberText := numberToString pageNumber in
  let pageNumberWidth :=
    widthOfTextAtSize pageNumberFont pageNumberText pageNumberFontSize in
  let pageNumberX := (width / 2 - pageNumberWidth / 2)%Q in
  let pageNumberY := pageNumberMargin in
  let lineWidth := (pageNumberWidth + 10)%Q in
  let lineHeight := (1 # 2)%Q in
  let lineX := (pageNumberX - 5)%Q in
  let lineY := (pageNumberY + pageNumberFontSize + 5)%Q in
  [ DrawText pageNumberText pageNumberX pageNumberY pageNumberFontSize;
    DrawRectangle lineX lineY lineWidth lineHeight ].

Fixpoint stampFrom (i : nat) (pages : list PDFPage) : list PDFPage :=
  match pages with
  | [] => []
  | pg :: rest => (pg ++ stamp i) :: stampFrom (S i) rest
  end.

Definition addPageNumbers (pdfDoc : PDFDocument) : PDFDocument :=
  stampFrom 0 pdfDoc.

End Overlay.

End PageNumbers.

(* ================================================================== *)
(** ** index.ts *)
(* ================================================================== *)

Module Index.
Import Js CreateParagraphs DrawText PageNumbers.

Section Driver.
Variable font : PDFFont.
(** [page.getSize()] of a page made by [pdfDoc.addPage()]. *)
Variable width height : Q.

Definition textMaxWidth : Q := (width - 2 * globalStyles.margin)%Q.

(** The line stream [createPDF] hands to the pagination engine. *)
Definition documentLines (textContent : string) : LineStream :=
  let textContentNoDashes := insertSpaceAfterDash textContent in
  let paragraphs := splitTextIntoParagraphs textContentNoDashes in
  let capitalizedParagraphs := map capitalizeChapterTitle paragraphs in
  let paragraphsAsWordArrays :=
    map splitWhitespace capitalizedParagraphs in
  createLines font bodyTextStyle.size textMaxWidth paragraphsAsWordArrays.

(** The document after [drawTextLines], before the overlay. *)
Definition laidOut (textContent : string) : Layout :=
  let ls := documentLines textContent in
  let newChapterIndices := getNewChapterIndices (lines ls) in
  (* pdfDoc.addPage(): the document starts with one empty page *)
  drawTextLines (lines ls) globalStyles.margin height bodyTextStyle.size
    chapterTitleStyle.size font bodyTextStyle.lineHeight
    globalStyles.paragraphBreakHeight textMaxWidth newChapterIndices
    (isLastLine ls) (isFirstLine ls) [[]] 0.

(** [createPDF]: the document that is saved. *)
Definition createPDF (textContent : string) : PDFDocument :=
  addPageNumbers font width (doc (laidOut textContent)).

End Driver.

End Index.

(* ================================================================== *)
(** ** The earlier build: one paragraph at a time *)
(* ================================================================== *)

(** The compiled [createParagraphs.js] of the earlier revision breaks
    lines one paragraph at a time, with the same [addWordToLine],
    [processLastLine] and [handleOrphans] (its [indentationWidth] is the
    18 of [parIndentWidth]). *)
Module EarlierBuild.
Import Js CreateParagraphs.

(** The loop of [getNewParagraphIndices], with its [index] and
    [lineCount]. *)
Fixpoint paragraphIndicesFrom (index lineCount : nat)
    (paragraphs : list string) : list nat :=
  match paragraphs with
  | [] => []
  | paragraph :: rest =>
      let next := lineCount + List.length (split "010" paragraph) in
      if (0 <? index) && negb (String.eqb paragraph EmptyString)
      then lineCount :: paragraphIndicesFrom (S index) next rest
      else paragraphIndicesFrom (S index) next rest
  end.

Definition getNewParagraphIndices (paragraphs : list string) : list nat :=
  0 :: paragraphIndicesFrom 0 0 paragraphs.

Section LineBreaker.
Variable font : PDFFont.
Variable fontSize : Q.
Variable textMaxWidth : Q.

Definition splitParagraphIntoLines (paragraph : string) : LineStream :=
  let words := splitWhitespace paragraph in
  let o := wrapParagraph font fontSize textMaxWidth emptyStream words in
  {| lines := handleOrphans (lines o) (isLastLine o);
     isLastLine := isLastLine o;
     isFirstLine := isFirstLine o |}.

End LineBreaker.

End EarlierBuild.

(* ================================================================== *)
(** ** Predicates used to state the properties *)
(* ================================================================== *)

Import Js Regex CreateParagraphs DrawText PageNumbers Index.

(** Every character of [s] is a decimal digit. *)
Fixpoint allDigits (s : string) : bool :=
  match s with
  | EmptyString => true
  | String c rest => isDigit c && allDigits rest
  end.

(** No character of [s] is a line terminator. *)
Fixpoint singleLine (s : string) : bool :=
  match s with
  | EmptyString => true
  | String c rest => negb (isLineTerminator c) && singleLine rest
  end.

Definition startsWithDigit (s : string) : bool :=
  match s with
  | EmptyString => false
  | String c _ => isDigit c
  end.

(** [line] reads [CHAPTER <digits>. <anything>]: what the chapter indexer
    looks for. *)
Definition ChapterPrefixed (line : string) : Prop :=
  exists ds rest,
    line = ("CHAPTER " ++ ds ++ ". " ++ rest)%string
    /\ ds <> EmptyString /\ allDigits ds = true.

(** The current page is one the engine has just added: it is the last of
    the document, nothing is on it and the cursor is at the top. *)
Definition Fresh (margin pageHeight : Q) (st : Layout) : Prop :=
  exists d,
    doc st = d ++ [[]] /\ page st = List.length d
    /\ yPos st = (pageHeight - margin)%Q.

(** The first page of the document is blank, it is not the current page,
    and it is not the only page. *)
Definition FirstPageBlank (d : PDFDocument) (p : nat) : Prop :=
  1 <= p /\ exists rest, d = [] :: rest /\ rest <> [].

(** How far right the words of a drawn line reach, measured from the
    line's origin [xPos]: the position of the last word plus its width. *)
Definition xExtent (font : PDFFont) (xPos : Q) (ops : list PageOp) : Q :=
  match last ops (DrawRectangle 0 0 0 0) with
  | DrawText word x _ size => (x + widthOfTextAtSize font word size - xPos)%Q
  | DrawRectangle _ _ _ _ => 0%Q
  end.

(** The sum of the widths of the words at a font size. *)
Definition sumWidths (font : PDFFont) (size : Q) (words : list string) : Q :=
  fold_right (fun w acc => (widthOfTextAtSize font w size + acc)%Q) 0%Q words.

(** The width of [line] at [size] is the sum of its word widths plus one
    space width per gap. *)
Definition AdditiveOn (font : PDFFont) (size : Q) (line : string) : Prop :=
  (widthOfTextAtSize font line size
   == sumWidths font size (split " " line)
      + inject_Z (Z.of_nat (List.length (split " " line)) - 1)
        * widthOfTextAtSize font " " size)%Q.

(** The number of characters in the words, separators not counted. *)
Definition totalLength (words : list string) : nat :=
  fold_right (fun w n => String.length w + n) 0 words.

(** The empty string fits on a paragraph's first line. *)
Definition EmptyFits (font : PDFFont) (fontSize textMaxWidth : Q) : Prop :=
  (widthOfTextAtSize font EmptyString fontSize
   <= textMaxWidth - globalStyles.parIndentWidth)%Q.

(** [pg] begins with the operations [pre]. *)
Definition StartsWith (pre : list PageOp) (pg : PDFPage) : Prop :=
  exists rest, pg = pre ++ rest.

(** Page [q] exists in [d] and begins with [pre]. *)
Definition PageStartsWith (q : nat) (pre : list PageOp) (d : PDFDocument)
  : Prop :=
  q < List.length d /\ StartsWith pre (nth q d []).

(** The property [P] of a document and its current page holds of the
    layout [st]. *)
Definition Holds (P : PDFDocument -> nat -> Prop) (st : Layout) : Prop :=
  P (doc st) (page st).

(** The character [c] does not occur in [s]. *)
Fixpoint lacks (c : ascii) (s : string) : bool :=
  match s with
  | EmptyString => true
  | String d rest => negb (Ascii.eqb d c) && lacks c rest
  end.

(** No character of [s] is whitespace. *)
Fixpoint noWhitespace (s : string) : bool :=
  match s with
  | EmptyString => true
  | String c rest => negb (isWhitespace c) && noWhitespace rest
  end.

(** The indices are strictly increasing and all below [n]. *)
Fixpoint increasingBelow (n : nat) (xs : list nat) : Prop :=
  match xs with
  | [] => True
  | x :: rest =>
      x < n /\ Forall (fun y => x < y) rest /\ increasingBelow n rest
  end.

(** The non-empty words of one line, and of a list of lines in order. *)
Definition lineWords (line : string) : list string :=
  filter truthy (split " " line).

Definition wordsOf (ls : list string) : list string :=
  flat_map lineWords ls.

(** The only whitespace in [s] is the space character. *)
Fixpoint spaceOnly (s : string) : bool :=
  match s with
  | EmptyString => true
  | String c rest =>
      (negb (isWhitespace c) || Ascii.eqb c " ") && spaceOnly rest
  end.

(** [s] has a character that is not whitespace. *)
Fixpoint hasInk (s : string) : bool :=
  match s with
  | EmptyString => false
  | String c rest => negb (isWhitespace c) || hasInk rest
  end.

(** The three arrays of a line stream have the same length. *)
Definition Aligned (s : LineStream) : Prop :=
  List.length (isLastLine s) = List.length (lines s)
  /\ List.length (isFirstLine s) = List.length (lines s).

(** The flags of a line stream cut it into paragraphs: the arrays are
    aligned, a line is flagged first exactly when the line before it is
    flagged last, the first line is flagged first and the final line is
    flagged last. *)
Definition ParagraphBlocks (s : LineStream) : Prop :=
  Aligned s
  /\ (forall i, S i < List.length (lines s) ->
        nth (S i) (isFirstLine s) false = nth i (isLastLine s) false)
  /\ (lines s <> [] ->
      nth 0 (isFirstLine s) false = true
      /\ nth (List.length (lines s) - 1) (isLastLine s) false = true).

(** The same while a paragraph is being wrapped: [f] tells whether the
    next line pushed opens a paragraph, which is the case exactly when the
    line before it closed one (or there is none). *)
Definition OpenBlocks (o : LineStream) (f : bool) : Prop :=
  Aligned o
  /\ (forall i, S i < List.length (lines o) ->
        nth (S i) (isFirstLine o) false = nth i (isLastLine o) false)
  /\ (lines o <> [] -> nth 0 (isFirstLine o) false = true)
  /\ nth (List.length (lines o) - 1) (isLastLine o) true = f.

(** The texts of the [drawText] operations, in order. *)
Definition opTexts (ops : list PageOp) : list string :=
  flat_map (fun op => match op with
                      | DrawText text _ _ _ => [text]
                      | DrawRectangle _ _ _ _ => []
                      end) ops.

(** What the engine draws for one line: nothing for an empty line, the
    whole line in one piece for a paragraph's last line, and otherwise one
    piece per word. *)
Definition drawnTexts (isLast : bool) (line : string) : list string :=
  if String.eqb line EmptyString then []
  else if isLast then [line] else split " " line.

(** The same for the lines [ls], the first of which has index [i]. *)
Fixpoint textsFrom (isLastLine : list bool) (i : nat) (ls : list string)
  : list string :=
  match ls with
  | [] => []
  | line :: rest =>
      drawnTexts (nth i isLastLine false) line
      ++ textsFrom isLastLine (S i) rest
  end.

(** The current page is the last page of the document. *)
Definition OnLastPage (st : Layout) : Prop :=
  S (page st) = List.length (doc st).

(** A [drawText] operation has its baseline between [lo] and [hi]. *)
Definition InBand (lo hi : Q) (op : PageOp) : Prop :=
  match op with
  | DrawText _ _ y _ => (lo <= y /\ y <= hi)%Q
  | DrawRectangle _ _ _ _ => True
  end.

Definition AllInBand (lo hi : Q) (d : PDFDocument) : Prop :=
  Forall (Forall (InBand lo hi)) d.

(** The cursor and the space count agree ([remainingSpace] is the distance
    from the cursor to the bottom margin), the cursor is not above the top
    margin, and everything drawn so far lies in the band. *)
Definition WithinMargins (margin lo hi : Q) (d : PDFDocument) (y r : Q)
  : Prop :=
  (r == y - margin)%Q /\ (y <= hi)%Q /\ AllInBand lo hi d.

(** Every character of [s] is whitespace. *)
Fixpoint allWhitespace (s : string) : bool :=
  match s with
  | EmptyString => true
  | String c rest => isWhitespace c && allWhitespace rest
  end.

(** The [n] lines from line [i] on continue a paragraph and end it: none
    is flagged first, and the last of them, and only it, is flagged last. *)
Fixpoint continues (isFirstLine isLastLine : list bool) (i n : nat) : bool :=
  match n with
  | 0 => true
  | S n' =>
      negb (nth i isFirstLine false)
      && Bool.eqb (nth i isLastLine false) (n' =? 0)
      && continues isFirstLine isLastLine (S i) n'
  end.

(** A paragraph of [n] lines starts at line [i]. *)
Definition paragraphAt (isFirstLine isLastLine : list bool) (i n : nat)
  : bool :=
  match n with
  | 0 => false
  | S n' =>
      nth i isFirstLine false
      && Bool.eqb (nth i isLastLine false) (n' =? 0)
      && continues isFirstLine isLastLine (S i) n'
  end.

(** Lines of running text, the first of which has index [i]: none is
    empty, ends in a colon or is a chapter start. *)
Fixpoint plainFrom (newChapterIndices : list nat) (i : nat)
    (ls : list string) : bool :=
  match ls with
  | [] => true
  | line :: rest =>
      negb (String.eqb line EmptyString)
      && negb (endsWith ":" line)
      && negb (includes newChapterIndices i)
      && plainFrom newChapterIndices (S i) rest
  end.

(** Before line [k]: the paragraph end on record is an earlier line, and
    none is on record that is later than a pending colon. *)
Definition ColonOpen (k : nat) (st : Layout) : Prop :=
  (lastLineOfParagraph st < Z.of_nat k)%Z
  /\ (colonEncountered st = true ->
      (lastLineOfParagraph st <= afterColonLineIndex st)%Z).

(** The number of chapter starts among the [n] lines from line [k]. *)
Definition chapterStarts (newChapterIndices : list nat) (k n : nat) : nat :=
  List.length (filter (includes newChapterIndices) (seq k n)).

(** Whole-number page geometry on which the source's doubles compute
    exactly: no length is negative, and the page height, the paragraph
    break and the line height times the number of lines (and four more)
    are at most 2^52, so that every sum, difference and product the engine
    forms for the vertical layout is a whole number below 2^53. *)
Definition ExactLayout
    (margin pageHeight lineHeight paragraphBreakHeight : Z) (n : nat)
  : Prop :=
  (0 <= margin /\ 0 <= lineHeight /\ 0 <= paragraphBreakHeight
   /\ pageHeight <= 2 ^ 52
   /\ paragraphBreakHeight <= 2 ^ 52
   /\ (Z.of_nat n + 4) * lineHeight <= 2 ^ 52)%Z.

(** A monospaced font: every character is as wide as the font size. It is
    additive over space-joined words. *)
Definition monospace : PDFFont :=
  {| widthOfTextAtSize :=
       fun s size => (size * inject_Z (Z.of_nat (String.length s)))%Q |}.

Definition newline : string := String "010" EmptyString.

(** Sample line streams, laid out with the styles of [textStyles.ts]
    (margin 100, body size 14, title size 18, line height 20, paragraph
    break 10) in a text column 400 wide. *)
Definition colonSample : LineStream :=
  {| lines := ["Items:"; EmptyString; "Next"];
     isLastLine := [true; false; true];
     isFirstLine := [true; false; true] |}.

Definition fiveLineParagraph : LineStream :=
  {| lines := ["a"; "b"; "c"; "d"; "e"];
     isLastLine := [false; false; false; false; true];
     isFirstLine := [true; false; false; false; false] |}.

Definition chapterSample : LineStream :=
  {| lines := ["Preface."; "CHAPTER 1. One."];
     isLastLine := [true; true];
     isFirstLine := [true; true] |}.

(** [drawTextLines] on a sample, on a new one-page document of the given
    page height. *)
Definition layOut (pageHeight : Q) (newChapterIndices : list nat)
    (s : LineStream) : Layout :=
  drawTextLines (lines s) 100 pageHeight 14 18 monospace 20 10 400
    newChapterIndices (isLastLine s) (isFirstLine s) [[]] 0.

(** A chapter heading long enough to wrap onto a second line. *)
Definition longTitleText : string := "CHAPTER 1. The long road home again.".

(** A chapter heading followed by a paragraph. *)
Definition chapterText : string :=
  ("CHAPTER 1. the beginning." ++ newline ++ "Hello world.")%string.

(* ================================================================== *)
(** ** Proof automation *)
(* ================================================================== *)

(** Case analysis on every condition of the goal. *)
Ltac split_ifs :=
  repeat match goal with
         | |- context [if ?c then _ else _] => destruct c
         end.

(** Reduce the projections of a layout built by the engine's updates. *)
Ltac fields :=
  cbn [doc page yPos remainingSpace lineIndex colonEncountered
       afterColonLineIndex lastLineOfParagraph remainingLinesInParagraph
       setRemainingLines advance markColon clearColon
       setLastLineOfParagraph draw nextLineIndex startNewPage] in *.

(** Case analysis on the eight bits of a character. *)
Ltac by_bits c := destruct c as [[] [] [] [] [] [] [] []].

Ltac unfold_breaks :=
  unfold pageBreaks, ensureSpace, preventWidows, preventOrphans, lookahead,
    chapterBreak.

Ltac unfold_place :=
  unfold placeLine, paragraphBreak, drawLine.

(* ================================================================== *)
(** ** Facts about the matchers *)
(* ================================================================== *)

Section RegexFacts.

Lemma stripPrefix_spec (p s r : string) :
  stripPrefix p s = Some r <-> s = (p ++ r)%string.
Proof.
  revert s; induction p as [|a p IH]; intros s; simpl.
  - split; [intros [= ->]; reflexivity | intros ->; reflexivity].
  - destruct s as [|b s].
    + split; discriminate.
    + destruct (Ascii.eqb_spec a b) as [->|Hne].
      * rewrite IH.
        split; [intros ->; reflexivity | intros [= ->]; reflexivity].
      * split; [discriminate | intros [= Hab _]; congruence].
Qed.

Lemma spanDigits_spec (s : string) :
  let (ds, r) := spanDigits s in
  s = (ds ++ r)%string /\ allDigits ds = true /\ startsWithDigit r = false.
Proof.
  induction s as [|c s IH]; simpl.
  - auto.
  - destruct (isDigit c) eqn:Hc.
    + destruct (spanDigits s) as [ds r]. destruct IH as (-> & Hd & Hr).
      simpl. rewrite Hc, Hd. auto.
    + simpl. rewrite Hc. auto.
Qed.

Lemma spanDigits_unique (ds r : string) :
  allDigits ds = true -> startsWithDigit r = false ->
  spanDigits (ds ++ r) = (ds, r).
Proof.
  induction ds as [|c ds IH]; simpl; intros Hd Hr.
  - destruct r as [|c r]; [reflexivity|]. simpl in *. now rewrite Hr.
  - apply andb_true_iff in Hd as [Hc Hd]. rewrite Hc, IH by assumption.
    reflexivity.
Qed.

Lemma truthy_nonempty (s : string) : truthy s = true <-> s <> EmptyString.
Proof. destruct s; simpl; split; congruence. Qed.

Lemma chapterPrefix_spec (s ds r : string) :
  chapterPrefix s = Some (ds, r) <->
  s = ("CHAPTER " ++ ds ++ ". " ++ r)%string
  /\ ds <> EmptyString /\ allDigits ds = true.
Proof.
  unfold chapterPrefix, digitsThen. split.
  - destruct (stripPrefix "CHAPTER " s) as [r0|] eqn:H0; [|discriminate].
    apply stripPrefix_spec in H0. subst s.
    pose proof (spanDigits_spec r0) as Hs.
    destruct (spanDigits r0) as [ds0 r1]. destruct Hs as (-> & Hd & _).
    destruct (truthy ds0) eqn:Ht; [|discriminate].
    destruct (stripPrefix ". " r1) as [r2|] eqn:H1; [|discriminate].
    apply stripPrefix_spec in H1. intros [= -> ->]. subst r1.
    apply truthy_nonempty in Ht. auto.
  - intros (-> & Hne & Hd).
    assert (H0 : stripPrefix "CHAPTER " ("CHAPTER " ++ ds ++ ". " ++ r)
                 = Some (ds ++ ". " ++ r)%string)
      by (apply stripPrefix_spec; reflexivity).
    rewrite H0, spanDigits_unique by (assumption || reflexivity).
    apply truthy_nonempty in Hne. rewrite Hne.
    assert (H1 : stripPrefix ". " (". " ++ r) = Some r)
      by (apply stripPrefix_spec; reflexivity).
    now rewrite H1.
Qed.

Lemma matchesChapterPrefix_spec (line : string) :
  matchesChapterPrefix line = true <-> ChapterPrefixed line.
Proof.
  unfold matchesChapterPrefix, ChapterPrefixed. split.
  - destruct (chapterPrefix line) as [[ds r]|] eqn:H; [|discriminate].
    intros _. exists ds, r. now apply chapterPrefix_spec.
  - intros (ds & r & H). apply chapterPrefix_spec in H. now rewrite H.
Qed.

Lemma chapterIndicesFrom_spec (k i : nat) (ls : list string) :
  In i (chapterIndicesFrom k ls) <->
  exists j line,
    i = k + j /\ nth_error ls j = Some line
    /\ matchesChapterPrefix line = true.
Proof.
  revert k; induction ls as [|l ls IH]; intros k; simpl.
  - split; [tauto | intros (j & line & _ & H & _); destruct j; discriminate].
  - assert (Hrest :
      In i (chapterIndicesFrom (S k) ls) <->
      exists j line, i = k + S j /\ nth_error ls j = Some line
                     /\ matchesChapterPrefix line = true).
    { rewrite IH. split; intros (j & line & E & H); exists j, line;
        (split; [lia | exact H]). }
    destruct (matchesChapterPrefix l) eqn:Hl; simpl; rewrite ?Hrest; split.
    + intros [<- | (j & line & E & H)].
      * exists 0, l. repeat split; [lia | assumption].
      * exists (S j), line. auto.
    + intros ([|j] & line & E & H & Hm); simpl in H.
      * left; lia.
      * right; exists j, line; auto.
    + intros (j & line & E & H). exists (S j), line. auto.
    + intros ([|j] & line & E & H & Hm); simpl in H.
      * injection H as ->. congruence.
      * exists j, line; auto.
Qed.

Lemma greedyTitle_up_to_final_period (title : string) :
  title <> EmptyString -> singleLine title = true ->
  greedyTitle (title ++ ".") = Some title.
Proof.
  induction title as [|c t IH]; [congruence|]. intros _ Hs.
  simpl in Hs. apply andb_true_iff in Hs as [Hc Ht].
  apply negb_true_iff in Hc. simpl. rewrite Hc.
  destruct t as [|c' t'].
  - reflexivity.
  - rewrite IH by (assumption || discriminate). reflexivity.
Qed.

End RegexFacts.


(* ================================================================== *)
(** ** Text normaliser and chapter indexer *)
(* ================================================================== *)

Section ChapterDetection.

(** C5. [capitalizeChapterTitle] is not anchored at the end of the
    paragraph: a paragraph that merely begins like a heading and contains
    a period is rewritten, and everything after the last period of the
    match is dropped from the result. *)
Theorem capitalizeChapterTitle_truncates :
  capitalizeChapterTitle "CHAPTER 1. Mr. Smith arrives" = "CHAPTER 1. MR.".
Proof. reflexivity. Qed.

(** On a well-formed heading, [CHAPTER <digits>. <title>.] on one line,
    the title is upper-cased and nothing else changes. *)
Lemma capitalizeChapterTitle_on_heading (ds title : string) :
  ds <> EmptyString -> allDigits ds = true ->
  title <> EmptyString -> singleLine title = true ->
  capitalizeChapterTitle ("CHAPTER " ++ ds ++ ". " ++ title ++ ".")
  = ("CHAPTER " ++ ds ++ ". " ++ toUpperCase title ++ ".")%string.
Proof.
  intros Hds Hd Ht Hs. unfold capitalizeChapterTitle, chapterMatch.
  assert (E : chapterPrefix ("CHAPTER " ++ ds ++ ". " ++ title ++ ".")
              = Some (ds, (title ++ ".")%string))
    by (apply chapterPrefix_spec; auto).
  rewrite E, greedyTitle_up_to_final_period by assumption.
  simpl. f_equal. f_equal. f_equal. f_equal. f_equal. f_equal. f_equal.
  f_equal. clear. induction ds; simpl; [reflexivity | now rewrite IHds].
Qed.

Lemma capitalizeChapterTitle_on_heading_witness :
  "12" <> EmptyString /\ allDigits "12" = true
  /\ "the beginning" <> EmptyString /\ singleLine "the beginning" = true
  /\ capitalizeChapterTitle "CHAPTER 12. the beginning."
     = "CHAPTER 12. THE BEGINNING.".
Proof.
  assert (H1 : "12" <> EmptyString) by discriminate.
  assert (H3 : "the beginning" <> EmptyString) by discriminate.
  repeat (split; [assumption || reflexivity|]).
  exact (capitalizeChapterTitle_on_heading "12" "the beginning"
           H1 eq_refl H3 eq_refl).
Defined.

(** C6, as the code has it. An index is recorded as a chapter start
    exactly when the line at that index begins with [CHAPTER ], one or
    more digits, a period and a space; nothing is required of the rest of
    the line. *)
Theorem getNewChapterIndices_prefix_only (ls : list string) (i : nat) :
  In i (getNewChapterIndices ls) <->
  exists line, nth_error ls i = Some line /\ ChapterPrefixed line.
Proof.
  unfold getNewChapterIndices. rewrite chapterIndicesFrom_spec. split.
  - intros (j & line & -> & Hn & Hm). exists line.
    split; [exact Hn | now apply matchesChapterPrefix_spec].
  - intros (line & Hn & Hp). exists i, line.
    repeat split; [exact Hn | now apply matchesChapterPrefix_spec].
Qed.

(** C6, counterexample. A line without the trailing period is recorded
    as a chapter start, and the pagination engine opens a new page for
    it. *)
Lemma getNewChapterIndices_without_trailing_period :
  let ls := ["Preface."; "CHAPTER 1. the beginning"] in
  endsWith "." "CHAPTER 1. the beginning" = false
  /\ getNewChapterIndices ls = [1]
  /\ doc (drawTextLines ls 100 800 14 18 monospace 20 10 400
            (getNewChapterIndices ls) [true; true] [true; true] [[]] 0)
     = [ [DrawText "Preface." (100 + 18) (800 - 100) 14];
         [DrawText "CHAPTER 1. the beginning" 100 (800 - 100) 18] ].
Proof. repeat split. Qed.

End ChapterDetection.

(* ================================================================== *)
(** ** Line breaker *)
(* ================================================================== *)

Section LineBreakerFacts.
Variable font : PDFFont.
Variable fontSize : Q.
Variable textMaxWidth : Q.

Lemma addWord_empty (o : LineStream) :
  EmptyFits font fontSize textMaxWidth ->
  addWord font fontSize textMaxWidth
    {| out := o; currentLine := EmptyString;
       isFirstLineOfParagraph := true |} EmptyString
  = {| out := o; currentLine := EmptyString;
       isFirstLineOfParagraph := true |}.
Proof.
  intros H. unfold addWord, addWordToLine, Qleb. simpl.
  apply Qle_bool_iff in H. now rewrite H.
Qed.

Lemma wrapParagraph_blank (o : LineStream) (blank : list string) :
  EmptyFits font fontSize textMaxWidth ->
  Forall (fun w => w = EmptyString) blank ->
  wrapParagraph font fontSize textMaxWidth o blank = o.
Proof.
  intros Hfit Hall. unfold wrapParagraph.
  assert (E : fold_left (addWord font fontSize textMaxWidth) blank
                {| out := o; currentLine := EmptyString;
                   isFirstLineOfParagraph := true |}
              = {| out := o; currentLine := EmptyString;
                   isFirstLineOfParagraph := true |}).
  { induction Hall as [|w ws -> _ IH]; simpl; [reflexivity|].
    now rewrite addWord_empty. }
  rewrite E. reflexivity.
Qed.

(** C4, as the code has it. A blank paragraph (its word array holds only
    empty words, as [split(/\s+/)] yields for an empty or all-whitespace
    paragraph) leaves no entry in the line stream: line breaking gives
    the same lines and flags as if the blank paragraph were not there. *)
Theorem blank_paragraph_leaves_no_line
    (before after : list (list string)) (blank : list string) :
  EmptyFits font fontSize textMaxWidth ->
  Forall (fun w => w = EmptyString) blank ->
  createLines font fontSize textMaxWidth (before ++ blank :: after)
  = createLines font fontSize textMaxWidth (before ++ after).
Proof.
  intros Hfit Hall. unfold createLines, wrapAll.
  rewrite !fold_left_app. simpl.
  now rewrite wrapParagraph_blank.
Qed.

End LineBreakerFacts.

Lemma blank_paragraph_leaves_no_line_witness :
  EmptyFits monospace 14 400
  /\ Forall (fun w => w = EmptyString) [EmptyString]
  /\ createLines monospace 14 400
       ([["a"; "b"]] ++ [EmptyString] :: [["c"; "d"]])
     = createLines monospace 14 400 ([["a"; "b"]] ++ [["c"; "d"]]).
Proof.
  assert (Hfit : EmptyFits monospace 14 400) by (vm_compute; discriminate).
  assert (Hall : Forall (fun w => w = EmptyString) [EmptyString])
    by (constructor; [reflexivity | constructor]).
  split; [exact Hfit | split; [exact Hall |]].
  apply (blank_paragraph_leaves_no_line monospace 14 400
           [["a"; "b"]] [["c"; "d"]] [EmptyString] Hfit Hall).
Defined.

(** C4, counterexample. The blank line between two paragraphs of the input
    text has no marker in the line stream: there are two lines, none of
    them empty. *)
Lemma blank_line_not_preserved :
  let text := ("a b" ++ newline ++ newline ++ "c d")%string in
  splitTextIntoParagraphs text = ["a b"; EmptyString; "c d"]
  /\ documentLines monospace 600 text
     = {| lines := ["a b"; "c d"];
          isLastLine := [true; true];
          isFirstLine := [true; true] |}.
Proof. split; reflexivity. Qed.

(** C2. Orphan correction reaches across a paragraph boundary: a paragraph
    of a single one-word line takes the last word of the line before it,
    which closes the previous paragraph. *)
Theorem handleOrphans_rewrites_single_line_paragraph :
  createLines monospace 14 400 [["foo"; "bar"; "baz"]; ["Hello"]]
  = {| lines := ["foo bar"; "baz Hello"];
       isLastLine := [true; true];
       isFirstLine := [true; true] |}.
Proof. reflexivity. Qed.

(** C7. After orphan correction a two-line paragraph can end in a line of
    one word: the one-word paragraph that follows takes the word that
    correction had just moved down. *)
Theorem handleOrphans_leaves_one_word_final_line :
  createLines monospace 14 100 [["a"; "b"; "c"; "d"]; ["e"]]
  = {| lines := ["a b"; "c"; "d e"];
       isLastLine := [false; true; true];
       isFirstLine := [true; false; true] |}.
Proof. reflexivity. Qed.


(* ================================================================== *)
(** ** Documents: drawing never disturbs what is already on a page *)
(* ================================================================== *)

Section DocumentFacts.

Lemma length_assign {A} (i : nat) (v : A) (xs : list A) :
  List.length (assign i v xs) = List.length xs.
Proof.
  revert i; induction xs as [|h t IH]; intros [|i]; simpl; auto.
Qed.

Lemma nth_assign {A} (i j : nat) (v dflt : A) (xs : list A) :
  nth j (assign i v xs) dflt
  = if (j =? i) && (i <? List.length xs) then v else nth j xs dflt.
Proof.
  revert i j; induction xs as [|h t IH]; intros [|i] [|j]; simpl; auto;
    now rewrite ?andb_false_r.
Qed.

Lemma length_drawOn (p : nat) (ops : list PageOp) (d : PDFDocument) :
  List.length (drawOn p ops d) = List.length d.
Proof. apply length_assign. Qed.

Lemma nth_drawOn (p q : nat) (ops : list PageOp) (d : PDFDocument) :
  nth q (drawOn p ops d) []
  = if (q =? p) && (p <? List.length d) then nth p d [] ++ ops
    else nth q d [].
Proof. apply nth_assign. Qed.

(** Drawing on the page just added. *)
Lemma drawOn_last (d : PDFDocument) (pg : PDFPage) (ops : list PageOp) :
  drawOn (List.length d) ops (d ++ [pg]) = d ++ [pg ++ ops].
Proof.
  unfold drawOn. rewrite nth_middle.
  induction d as [|h t IH]; simpl; [reflexivity | now rewrite IH].
Qed.

(** Drawing on a page other than the first leaves the first alone. *)
Lemma drawOn_tail (p : nat) (ops : list PageOp) (pg : PDFPage)
    (d : PDFDocument) :
  1 <= p -> exists d', drawOn p ops (pg :: d) = pg :: d'
                       /\ List.length d' = List.length d.
Proof.
  intros Hp. destruct p as [|p]; [lia|].
  unfold drawOn. simpl assign. eexists; split; [reflexivity|].
  apply length_assign.
Qed.

End DocumentFacts.

Lemma PageStartsWith_addPage q pre d :
  PageStartsWith q pre d -> PageStartsWith q pre (d ++ [[]]).
Proof.
  intros [Hq Hs]. split.
  - rewrite length_app. simpl. lia.
  - now rewrite app_nth1.
Qed.

Lemma PageStartsWith_drawOn q pre d p ops :
  PageStartsWith q pre d -> PageStartsWith q pre (drawOn p ops d).
Proof.
  intros [Hq [rest Hs]]. split.
  - now rewrite length_drawOn.
  - rewrite nth_drawOn.
    destruct ((q =? p) && (p <? List.length d)) eqn:E.
    + apply andb_true_iff in E as [E _]. apply Nat.eqb_eq in E. subst p.
      exists (rest ++ ops). now rewrite Hs, app_assoc.
    + now exists rest.
Qed.


(* ================================================================== *)
(** ** Pagination engine *)
(* ================================================================== *)

Section PaginationFacts.
Variable lines : list string.
Variables margin pageHeight fontSize chapterTitleFontSize : Q.
Variable font : PDFFont.
Variables lineHeight paragraphBreakHeight textMaxWidth : Q.
Variable newChapterIndices : list nat.
Variables isLastLine isFirstLine : list bool.

Local Abbreviation newPage := (startNewPage margin pageHeight).
Local Abbreviation breaks :=
  (pageBreaks lines margin pageHeight lineHeight newChapterIndices
     isLastLine isFirstLine).
Local Abbreviation place :=
  (placeLine margin fontSize chapterTitleFontSize font lineHeight
     paragraphBreakHeight textMaxWidth newChapterIndices isLastLine
     isFirstLine).
Local Abbreviation step :=
  (processLine lines margin pageHeight fontSize chapterTitleFontSize font
     lineHeight paragraphBreakHeight textMaxWidth newChapterIndices
     isLastLine isFirstLine).
Local Abbreviation run :=
  (drawFrom lines margin pageHeight fontSize chapterTitleFontSize font
     lineHeight paragraphBreakHeight textMaxWidth newChapterIndices
     isLastLine isFirstLine).
Local Abbreviation start := (initialLayout margin pageHeight).
Local Abbreviation engine :=
  (drawTextLines lines margin pageHeight fontSize chapterTitleFontSize font
     lineHeight paragraphBreakHeight textMaxWidth newChapterIndices
     isLastLine isFirstLine).
Local Abbreviation justified y :=
  (drawJustifiedLine margin y fontSize chapterTitleFontSize font
     textMaxWidth).
Local Abbreviation titleAt := (isChapterTitleAt newChapterIndices).

(* ---------------------------------------------------------------- *)
(** *** Properties of the document that every step keeps *)

Section Preserved.
Variable P : PDFDocument -> nat -> Prop.
Hypothesis P_addPage :
  forall d p, P d p -> P (d ++ [[]]) (List.length d).
Hypothesis P_drawOn :
  forall d p ops, P d p -> P (drawOn p ops d) p.

Lemma breaks_preserved i line st : Holds P st -> Holds P (breaks i line st).
Proof.
  unfold Holds. intros H. unfold_breaks.
  split_ifs; fields; repeat eapply P_addPage; exact H.
Qed.

(** The same for the rules that come after the chapter rule. *)
Lemma later_rules_preserved i s :
  Holds P s ->
  Holds P (ensureSpace margin pageHeight lineHeight
           (preventWidows margin pageHeight lineHeight isFirstLine i
              (preventOrphans margin pageHeight lineHeight
                 (lookahead lines isLastLine isFirstLine i s)))).
Proof.
  unfold Holds. intros H.
  unfold ensureSpace, preventWidows, preventOrphans, lookahead.
  split_ifs; fields; repeat eapply P_addPage; exact H.
Qed.

Lemma place_preserved i line st : Holds P st -> Holds P (place i line st).
Proof.
  unfold Holds. intros H. unfold_place.
  split_ifs; fields; try apply P_drawOn; exact H.
Qed.

Lemma step_preserved i line st : Holds P st -> Holds P (step i line st).
Proof.
  intros H. unfold processLine.
  apply (breaks_preserved i line), (place_preserved i line) in H.
  exact H.
Qed.

Lemma run_preserved ls : forall k st, Holds P st -> Holds P (run k ls st).
Proof.
  induction ls as [|l ls IH]; intros k st H; simpl; [exact H|].
  apply IH, step_preserved, H.
Qed.

End Preserved.

(* ---------------------------------------------------------------- *)
(** *** What the page-break rules and the placement leave alone *)

Lemma breaks_colon_state i line st :
  colonEncountered (breaks i line st) = colonEncountered st
  /\ afterColonLineIndex (breaks i line st) = afterColonLineIndex st
  /\ lastLineOfParagraph (breaks i line st) = lastLineOfParagraph st
  /\ lineIndex (breaks i line st) = lineIndex st.
Proof. unfold_breaks. split_ifs; fields; auto. Qed.

Lemma place_doc_length i line st :
  List.length (doc (place i line st)) = List.length (doc st).
Proof.
  unfold_place. split_ifs; fields; rewrite ?length_drawOn; reflexivity.
Qed.

Lemma place_lineIndex i line st :
  lineIndex (place i line st) = lineIndex st.
Proof. unfold_place. split_ifs; fields; reflexivity. Qed.

Lemma step_lineIndex i line st :
  lineIndex (step i line st) = S (lineIndex st).
Proof.
  unfold processLine. fields. rewrite place_lineIndex.
  f_equal. apply breaks_colon_state.
Qed.

Lemma run_lineIndex ls : forall k st,
  lineIndex (run k ls st) = lineIndex st + List.length ls.
Proof.
  induction ls as [|l ls IH]; intros k st; simpl; [lia|].
  rewrite IH, step_lineIndex. lia.
Qed.

Lemma run_app l1 l2 : forall k st,
  run k (l1 ++ l2) st = run (k + List.length l1) l2 (run k l1 st).
Proof.
  induction l1 as [|l l1 IH]; intros k st; simpl.
  - now rewrite Nat.add_0_r.
  - rewrite IH. f_equal. lia.
Qed.

(** A run, cut at line [i]. *)
Lemma run_split ls i line st :
  nth_error ls i = Some line ->
  run 0 ls st
  = run (S i) (skipn (S i) ls) (step i line (run 0 (firstn i ls) st)).
Proof.
  intros H.
  pose proof (nth_error_split ls i H) as (l1 & l2 & E & Hlen).
  subst ls i.
  replace (firstn (List.length l1) (l1 ++ line :: l2)) with l1
    by (clear; induction l1; simpl; congruence).
  replace (skipn (S (List.length l1)) (l1 ++ line :: l2)) with l2
    by (clear; induction l1; simpl; auto).
  rewrite run_app. reflexivity.
Qed.

Lemma engine_split d p i line :
  nth_error lines i = Some line ->
  engine d p
  = run (S i) (skipn (S i) lines)
      (step i line (run 0 (firstn i lines) (start d p))).
Proof. apply run_split. Qed.

Lemma prefix_lineIndex d p i :
  i <= List.length lines ->
  lineIndex (run 0 (firstn i lines) (start d p)) = i.
Proof.
  intros H. rewrite run_lineIndex, length_firstn. simpl. lia.
Qed.

Lemma includes_In xs i : includes xs i = true <-> In i xs.
Proof.
  unfold includes. rewrite existsb_exists. split.
  - intros (x & Hx & E). apply Nat.eqb_eq in E. now subst.
  - intros H. exists i. split; [exact H | apply Nat.eqb_refl].
Qed.

(* ---------------------------------------------------------------- *)
(** *** Chapter starts *)

Lemma fresh_newPage st : Fresh margin pageHeight (newPage st).
Proof. exists (doc st). fields. auto. Qed.

Lemma breaks_fresh_at_chapter i line st :
  includes newChapterIndices (lineIndex st) = true ->
  Fresh margin pageHeight (breaks i line st).
Proof.
  intros H. unfold pageBreaks. unfold chapterBreak at 1.
  rewrite H, orb_true_r.
  pose proof (fresh_newPage st) as F. revert F.
  generalize (newPage st). intros s F.
  assert (F1 : Fresh margin pageHeight
                 (lookahead lines isLastLine isFirstLine i s)).
  { unfold lookahead. destruct (nth i isFirstLine false); [|exact F].
    destruct F as (d & Hd & Hp & Hy). exists d. fields. auto. }
  revert F1. generalize (lookahead lines isLastLine isFirstLine i s).
  clear s F. intros s F.
  unfold ensureSpace, preventWidows, preventOrphans.
  split_ifs; auto using fresh_newPage.
Qed.

Lemma drawJustifiedLine_nonempty y line isLast isFirst isTitle :
  justified y line isLast isFirst isTitle <> [].
Proof.
  unfold drawJustifiedLine. destruct isLast; [discriminate|].
  assert (H : split " " line <> []).
  { destruct line as [|c l]; simpl; [discriminate|].
    destruct (Ascii.eqb c " "); [discriminate|].
    destruct (split " " l); discriminate. }
  destruct (split " " line); [congruence | discriminate].
Qed.

Lemma place_on_fresh i line st :
  Fresh margin pageHeight st -> line <> EmptyString ->
  exists d,
    doc st = d ++ [[]] /\ page st = List.length d
    /\ doc (place i line st)
       = d ++ [justified (pageHeight - margin)%Q line
                 (nth i isLastLine false) (nth i isFirstLine false)
                 (titleAt i line)].
Proof.
  intros (d & Hd & Hp & Hy) Hne. exists d. repeat split; try assumption.
  unfold placeLine. apply String.eqb_neq in Hne. rewrite Hne.
  unfold drawLine. split_ifs; fields; rewrite Hd, Hp, Hy, drawOn_last;
    reflexivity.
Qed.

Lemma breaks_add_page_at_chapter i line st :
  includes newChapterIndices (lineIndex st) = true ->
  List.length (doc st) < List.length (doc (breaks i line st)).
Proof.
  intros H. unfold_breaks. rewrite H, orb_true_r.
  split_ifs; fields; rewrite ?length_app; simpl; lia.
Qed.

Lemma doc_grows_run ls k st :
  List.length (doc st) <= List.length (doc (run k ls st)).
Proof.
  apply (run_preserved (fun d _ => List.length (doc st) <= List.length d)).
  - intros dd ? H. rewrite length_app. simpl. lia.
  - intros dd ? ops H. now rewrite length_drawOn.
  - unfold Holds. lia.
Qed.

(** C8. Take any line whose index is a recorded chapter start. When the
    page-break rules have run for it, the current page is one the engine
    has just added: it is the last page, later than every page the
    document had at the start, nothing has been drawn on it and the
    cursor is at the top, so no spacing lies above the line. If the line is
    not empty, the drawing operations of that line (there is at least one)
    are the first operations on that page in the finished document. *)
Theorem chapter_start_is_first_on_its_page d p i line :
  nth_error lines i = Some line ->
  In i newChapterIndices ->
  let before := breaks i line (run 0 (firstn i lines) (start d p)) in
  let q := page before in
  let ops := justified (pageHeight - margin)%Q line
               (nth i isLastLine false) (nth i isFirstLine false)
               (titleAt i line) in
  List.length d <= q
  /\ S q = List.length (doc before)
  /\ nth_error (doc before) q = Some []
  /\ yPos before = (pageHeight - margin)%Q
  /\ ops <> []
  /\ (line <> EmptyString ->
      PageStartsWith q ops (doc (engine d p))).
Proof.
  intros Hline Hin before q ops.
  assert (Hi : i < List.length lines)
    by (apply nth_error_Some; congruence).
  assert (F : Fresh margin pageHeight before).
  { apply breaks_fresh_at_chapter.
    rewrite prefix_lineIndex by lia. now apply includes_In. }
  pose proof F as (d' & Hd & Hp & Hy).
  assert (Hlen : List.length d < List.length (doc before)).
  { unfold before.
    pose proof (doc_grows_run (firstn i lines) 0 (start d p)) as G.
    simpl in G. eapply Nat.le_lt_trans; [exact G|].
    apply breaks_add_page_at_chapter.
    rewrite prefix_lineIndex by lia. now apply includes_In. }
  assert (Hq : q = List.length d') by exact Hp.
  rewrite Hd, length_app in Hlen. simpl in Hlen.
  split; [lia|].
  split; [rewrite Hd, length_app; simpl; lia|].
  split; [rewrite Hd, Hq, nth_error_app2, Nat.sub_diag by lia; reflexivity|].
  split; [exact Hy|].
  split; [apply drawJustifiedLine_nonempty|].
  intros Hne.
  rewrite (engine_split d p i line Hline). unfold processLine. fold before.
  destruct (place_on_fresh i line before F Hne) as (d2 & Hd2 & Hp2 & Hdoc).
  assert (d2 = d') by (rewrite Hd in Hd2; now apply app_inv_tail in Hd2).
  subst d2.
  apply (run_preserved (fun dd _ => PageStartsWith q ops dd)).
  - intros dd ?. apply PageStartsWith_addPage.
  - intros dd pp o. apply PageStartsWith_drawOn.
  - unfold Holds. fields. rewrite Hdoc, Hq. split.
    + rewrite length_app. simpl. lia.
    + rewrite nth_middle. exists []. now rewrite app_nil_r.
Qed.

(* ---------------------------------------------------------------- *)
(** *** Colon-introduced blocks *)

Lemma breaks_without_new_page i line st :
  List.length (doc (breaks i line st)) = List.length (doc st) ->
  yPos (breaks i line st) = yPos st.
Proof.
  unfold_breaks.
  split_ifs; fields; rewrite ?length_app; simpl; intros; (reflexivity || lia).
Qed.

Lemma step_lastLine i line st :
  (lastLineOfParagraph st < Z.of_nat i)%Z ->
  (lastLineOfParagraph (step i line st) < Z.of_nat (S i))%Z.
Proof.
  intros H. unfold processLine. fields.
  pose proof (breaks_colon_state i line st) as (_ & _ & Hl & _).
  revert Hl. generalize (breaks i line st). intros s Hl.
  rewrite <- Hl in H. clear Hl.
  unfold_place. split_ifs; fields; lia.
Qed.

Lemma run_lastLine ls : forall k st,
  (lastLineOfParagraph st < Z.of_nat k)%Z ->
  (lastLineOfParagraph (run k ls st) < Z.of_nat (k + List.length ls))%Z.
Proof.
  induction ls as [|l ls IH]; intros k st H; simpl.
  - now rewrite Nat.add_0_r.
  - replace (k + S (List.length ls)) with (S k + List.length ls) by lia.
    apply IH, step_lastLine, H.
Qed.

Lemma prefix_lastLine d p i :
  i <= List.length lines ->
  (lastLineOfParagraph (run 0 (firstn i lines) (start d p)) < Z.of_nat i)%Z.
Proof.
  intros H.
  pose proof (run_lastLine (firstn i lines) 0 (start d p)) as G.
  rewrite length_firstn in G. simpl in G.
  replace (Nat.min i (List.length lines)) with i in G by lia.
  apply G. lia.
Qed.

Lemma endsWith_nonempty c line :
  endsWith c line = true -> String.eqb line EmptyString = false.
Proof. destruct line; [discriminate | reflexivity]. Qed.

(** The colon rule on a line that is not a chapter title. *)
Lemma drawLine_colon i line s :
  endsWith ":" line = true ->
  titleAt i line = false ->
  (lastLineOfParagraph s < Z.of_nat i)%Z ->
  let s' := place i line s in
  yPos s' = (yPos s - lineHeight - lineHeight)%Q
  /\ colonEncountered s' = true
  /\ lastLineOfParagraph s'
     = (if nth i isLastLine false then Z.of_nat i else lastLineOfParagraph s).
Proof.
  intros He Ht Hl. unfold placeLine.
  rewrite (endsWith_nonempty _ _ He). unfold drawLine. rewrite He, Ht.
  destruct (nth i isLastLine false); fields.
  - rewrite Z.ltb_irrefl. fields. auto.
  - assert (E : (Z.of_nat i <? lastLineOfParagraph s)%Z = false)
      by (apply Z.ltb_ge; lia).
    rewrite E. fields. auto.
Qed.

(** C1, as the code has it. A line ending in a colon (not a chapter title)
    is followed by a break marker, and no page is started at the marker.
    From the position at which the colon line is drawn to the position
    after the marker, the cursor goes down by the line advance, a first
    extra line height (the colon rule), the paragraph-break height, and a
    second extra line height whenever a paragraph end is on record: the
    colon line is flagged last of its paragraph, or an earlier paragraph
    end has not been cleared. Only when no paragraph end is on record is
    the extra space a single line height, and the colon then stays
    pending. *)
Theorem colon_line_then_break_marker d p i line :
  nth_error lines i = Some line ->
  nth_error lines (S i) = Some EmptyString ->
  endsWith ":" line = true ->
  titleAt i line = false ->
  let st := run 0 (firstn i lines) (start d p) in
  let s0 := breaks i line st in
  let s1 := step i line st in
  let s2 := step (S i) EmptyString s1 in
  let closed :=
    nth i isLastLine false || (0 <=? lastLineOfParagraph st)%Z in
  List.length (doc s2) = List.length (doc s1) ->
  (yPos s0 - yPos s2
   == lineHeight + lineHeight + paragraphBreakHeight
      + (if closed then lineHeight else 0))%Q
  /\ colonEncountered s2 = negb closed.
Proof.
  intros Hline Hmark He Ht st s0 s1 s2 closed Hsame.
  assert (Hi : i < List.length lines) by (apply nth_error_Some; congruence).
  assert (Hinv : (lastLineOfParagraph st < Z.of_nat i)%Z)
    by (apply prefix_lastLine; lia).
  pose proof (breaks_colon_state i line st) as (_ & _ & Hl0 & _).
  fold s0 in Hl0.
  assert (Hinv0 : (lastLineOfParagraph s0 < Z.of_nat i)%Z) by lia.
  pose proof (drawLine_colon i line s0 He Ht Hinv0) as (Hy1 & Hc1 & Hl1).
  pose proof (breaks_colon_state (S i) EmptyString s1) as (Hcb & _ & Hlb & _).
  assert (Hyb : yPos (breaks (S i) EmptyString s1) = yPos s1).
  { apply breaks_without_new_page. rewrite <- Hsame. unfold s2, processLine.
    fields. now rewrite place_doc_length. }
  assert (Hs1 : yPos s1 = (yPos s0 - lineHeight - lineHeight)%Q
                /\ colonEncountered s1 = true
                /\ lastLineOfParagraph s1
                   = (if nth i isLastLine false then Z.of_nat i
                      else lastLineOfParagraph s0)).
  { unfold s1, processLine. fields. fold s0. auto. }
  destruct Hs1 as (Ey & Ec & El).
  assert (Hclosed : (0 <=? lastLineOfParagraph s1)%Z = closed).
  { rewrite El. unfold closed. rewrite Hl0.
    destruct (nth i isLastLine false); simpl; [|reflexivity].
    apply Z.leb_le. lia. }
  unfold s2, processLine. fields. unfold placeLine. simpl String.eqb.
  unfold paragraphBreak. fields. rewrite Hcb, Hlb, Ec, Hclosed.
  destruct closed; simpl andb; fields; rewrite Hyb, Ey, ?Hcb, ?Ec;
    split; try reflexivity; ring.
Qed.

(* ---------------------------------------------------------------- *)
(** *** The orphan rule *)




Lemma scanForLast_least fuel : forall j start k,
  (forall m, j <= m < j + k -> nth m isLastLine false = false) ->
  nth (j + k) isLastLine false = true ->
  k < fuel ->
  scanForLast isLastLine fuel j start = Z.of_nat (j + k - start + 1).
Proof.
  induction fuel as [|fuel IH]; intros j start k Hnone Hlast Hk; [lia|].
  simpl. destruct k as [|k].
  - rewrite Nat.add_0_r in *. now rewrite Hlast.
  - rewrite (Hnone j) by lia.
    replace (j + S k) with (S j + k) in * by lia.
    apply IH; [intros m Hm; apply Hnone; lia | exact Hlast | lia].
Qed.

(** The lookahead counts the lines from [i] through the next line flagged
    last of its paragraph. *)
Lemma lookahead_counts_paragraph_lines i k :
  i + k < List.length lines ->
  (forall m, i <= m < i + k -> nth m isLastLine false = false) ->
  nth (i + k) isLastLine false = true ->
  calculateRemainingLinesInParagraph lines isLastLine i = Z.of_nat (k + 1).
Proof.
  intros Hlen Hnone Hlast. unfold calculateRemainingLinesInParagraph.
  rewrite (scanForLast_least _ i i k Hnone Hlast) by lia.
  f_equal. lia.
Qed.


(* ---------------------------------------------------------------- *)
(** *** A chapter start on the first line *)

Lemma FirstPageBlank_addPage d p :
  FirstPageBlank d p -> FirstPageBlank (d ++ [[]]) (List.length d).
Proof.
  intros (Hp & rest & -> & Hne). split; [simpl; lia|].
  exists (rest ++ [[]]). split; [reflexivity|].
  destruct rest; discriminate.
Qed.

Lemma FirstPageBlank_drawOn d p ops :
  FirstPageBlank d p -> FirstPageBlank (drawOn p ops d) p.
Proof.
  intros (Hp & rest & -> & Hne). split; [exact Hp|].
  destruct (drawOn_tail p ops [] rest Hp) as (d' & E & Hlen).
  exists d'. split; [exact E|].
  destruct d', rest; try discriminate; congruence.
Qed.

Lemma run_blank_first_page ls line rest :
  ls = line :: rest ->
  In 0 newChapterIndices ->
  let final := run 0 ls (start [[]] 0) in
  FirstPageBlank (doc final) (page final).
Proof.
  intros -> Hin. simpl.
  apply (run_preserved FirstPageBlank FirstPageBlank_addPage
           FirstPageBlank_drawOn).
  unfold processLine.
  apply (place_preserved FirstPageBlank FirstPageBlank_drawOn).
  unfold pageBreaks. unfold chapterBreak at 1.
  assert (E : includes newChapterIndices (lineIndex (start [[]] 0)) = true)
    by now apply includes_In.
  rewrite E, orb_true_r.
  apply (later_rules_preserved FirstPageBlank FirstPageBlank_addPage).
  unfold Holds. fields. simpl. split; [lia|].
  exists [[]]. split; [reflexivity | discriminate].
Qed.

End PaginationFacts.

(* ================================================================== *)
(** ** The pagination properties on sample documents *)
(* ================================================================== *)

Lemma chapter_start_is_first_on_its_page_witness :
  nth_error (lines chapterSample) 1 = Some "CHAPTER 1. One."
  /\ In 1 [1]
  /\ "CHAPTER 1. One." <> EmptyString
  /\ PageStartsWith 1 [DrawText "CHAPTER 1. One." 100 (800 - 100) 18]
       (doc (layOut 800 [1] chapterSample)).
Proof.
  assert (H1 : nth_error (lines chapterSample) 1 = Some "CHAPTER 1. One.")
    by reflexivity.
  assert (H2 : In 1 [1]) by (left; reflexivity).
  assert (H3 : "CHAPTER 1. One." <> EmptyString) by discriminate.
  split; [exact H1 | split; [exact H2 | split; [exact H3 |]]].
  pose proof (proj2 (proj2 (proj2 (proj2 (proj2
    (chapter_start_is_first_on_its_page (lines chapterSample) 100 800 14 18
       monospace 20 10 400 [1] (isLastLine chapterSample)
       (isFirstLine chapterSample) [[]] 0 1 "CHAPTER 1. One." H1 H2))))) H3)
    as H.
  vm_compute in H. vm_compute. exact H.
Defined.

(** C1, counterexample. The colon line closes its paragraph and is followed
    by a break marker and a new paragraph. The next paragraph is drawn 70
    below the colon line: the line advance and the paragraph break (20 and
    10) and two extra line heights, not one. *)
Lemma colon_break_marker_two_extra_line_heights :
  doc (layOut 800 [] colonSample)
  = [ [DrawText "Items:" 118 700 14; DrawText "Next" 118 630 14] ]
  /\ (700 - 630 == (20 + 10) + 2 * 20)%Q.
Proof. vm_compute. split; reflexivity. Qed.

Lemma colon_line_then_break_marker_witness :
  nth_error (lines colonSample) 0 = Some "Items:"
  /\ nth_error (lines colonSample) 1 = Some EmptyString
  /\ endsWith ":" "Items:" = true
  /\ isChapterTitleAt [] 0 "Items:" = false
  /\ List.length (doc (layOut 800 [] colonSample)) = 1
  /\ (700 - 630 == 20 + 20 + 10 + 20)%Q.
Proof.
  pose proof
    (colon_line_then_break_marker (lines colonSample) 100 800 14 18
       monospace 20 10 400 [] (isLastLine colonSample)
       (isFirstLine colonSample) [[]] 0 0 "Items:") as H.
  vm_compute in H. vm_compute.
  repeat (split; [reflexivity|]).
  exact (proj1 (H eq_refl eq_refl eq_refl eq_refl eq_refl)).
Defined.

Lemma lookahead_counts_paragraph_lines_witness :
  0 + 4 < List.length (lines fiveLineParagraph)
  /\ (forall m, 0 <= m < 0 + 4 ->
      nth m (isLastLine fiveLineParagraph) false = false)
  /\ nth (0 + 4) (isLastLine fiveLineParagraph) false = true
  /\ calculateRemainingLinesInParagraph (lines fiveLineParagraph)
       (isLastLine fiveLineParagraph) 0 = 5%Z.
Proof.
  assert (H1 : 0 + 4 < List.length (lines fiveLineParagraph))
    by (simpl; lia).
  assert (H2 : forall m, 0 <= m < 0 + 4 ->
               nth m (isLastLine fiveLineParagraph) false = false).
  { intros m Hm.
    destruct m as [|[|[|[|m]]]]; try reflexivity. simpl in Hm. lia. }
  split; [exact H1 | split; [exact H2 | split; [reflexivity |]]].
  exact (lookahead_counts_paragraph_lines (lines fiveLineParagraph)
           (isLastLine fiveLineParagraph) 0 4 H1 H2 eq_refl).
Defined.


(* ================================================================== *)
(** ** The driver: a chapter heading on the first line *)
(* ================================================================== *)

Section DriverFacts.
Variable font : PDFFont.
Variables width height : Q.

Lemma stampFrom_nonempty i pages :
  pages <> [] -> stampFrom font width i pages <> [].
Proof. destruct pages; [congruence | discriminate]. Qed.

Lemma stampFrom_length pages : forall k,
  List.length (stampFrom font width k pages) = List.length pages.
Proof. induction pages as [|pg ps IH]; intros k; simpl; auto. Qed.

Lemma stampFrom_nth pages : forall k i,
  i < List.length pages ->
  nth i (stampFrom font width k pages) []
  = nth i pages [] ++ stamp font width (k + i).
Proof.
  induction pages as [|pg ps IH]; intros k i Hi; simpl in Hi; [lia|].
  destruct i as [|i]; simpl.
  - now rewrite Nat.add_0_r.
  - rewrite IH by lia. do 2 f_equal; try lia.
Qed.

(** C10. When the first line of the document is a recorded chapter start,
    the page made before layout begins stays blank during layout, and the
    engine ends on a later page: the laid-out document is that blank page
    followed by the pages of content, of which there is at least one. The
    saved document keeps the blank page first, carrying nothing but the
    overlay of page number 1 (the number and its rule), and every page of
    content follows with its content and its number: the [j]-th page of
    content, counted from 0, is numbered [j + 2] and not [j + 1], so all
    content, the first chapter included, is shifted by one page. *)
Theorem chapter_on_first_line_leaves_page_one_blank (textContent : string) :
  In 0 (getNewChapterIndices (lines (documentLines font width textContent))) ->
  let final := laidOut font width height textContent in
  FirstPageBlank (doc final) (page final)
  /\ exists content rest,
       doc final = [] :: content
       /\ content <> []
       /\ createPDF font width height textContent
          = stamp font width 0 :: rest
       /\ rest <> []
       /\ (exists x y rx ry rw rh,
            stamp font width 0
            = [DrawText "1" x y 10; DrawRectangle rx ry rw rh])
       /\ List.length rest = List.length content
       /\ forall j, j < List.length content ->
            exists x y rx ry rw rh,
              nth j rest []
              = nth j content []
                ++ [DrawText (numberToString (j + 2)) x y 10;
                    DrawRectangle rx ry rw rh].
Proof.
  intros Hin final.
  assert (Hblank : FirstPageBlank (doc final) (page final)).
  { pose proof Hin as Hl.
    apply chapterIndicesFrom_spec in Hl as (j & line & Hj & Hnth & _).
    assert (j = 0) by lia. subst j.
    destruct (lines (documentLines font width textContent))
      as [|l rest] eqn:E; [discriminate|].
    unfold final, laidOut, drawTextLines. rewrite E.
    exact (run_blank_first_page (l :: rest) _ _ _ _ _ _ _ _ _ _ _
             (l :: rest) l rest eq_refl Hin). }
  split; [exact Hblank|].
  destruct Hblank as (_ & content & Hdoc & Hne).
  exists content, (stampFrom font width 1 content).
  split; [exact Hdoc|]. split; [exact Hne|].
  split; [|split; [|split; [|split]]].
  - unfold createPDF, addPageNumbers. fold final. rewrite Hdoc. reflexivity.
  - now apply stampFrom_nonempty.
  - unfold stamp. do 6 eexists. reflexivity.
  - apply stampFrom_length.
  - intros j Hj. rewrite stampFrom_nth by exact Hj.
    replace (1 + j + 1) with (j + 2) by lia.
    unfold stamp. replace (1 + j + 1) with (j + 2) by lia.
    do 6 eexists. reflexivity.
Qed.

End DriverFacts.

(** The saved document for a heading and one paragraph: the first page
    carries the number 1 alone, and the heading and the paragraph are on
    the page numbered 2 (the number is at x = 1180/4 = 295, y = 80). *)
Lemma chapter_on_first_line_leaves_page_one_blank_witness :
  In 0 (getNewChapterIndices (lines (documentLines monospace 600 chapterText)))
  /\ createPDF monospace 600 800 chapterText
     = [ [DrawText "1" (1180 # 4) (10000 # 125) 10;
          DrawRectangle (1160 # 4) (11875 # 125) 20 (1 # 2)];
         [DrawText "CHAPTER 1. THE BEGINNING." 100 700 18;
          DrawText "Hello world." 118 660 14;
          DrawText "2" (1180 # 4) (10000 # 125) 10;
          DrawRectangle (1160 # 4) (11875 # 125) 20 (1 # 2)] ]
  /\ FirstPageBlank (doc (laidOut monospace 600 800 chapterText))
       (page (laidOut monospace 600 800 chapterText)).
Proof.
  assert (H0 : In 0 (getNewChapterIndices
                       (lines (documentLines monospace 600 chapterText))))
    by (vm_compute; left; reflexivity).
  split; [exact H0 | split].
  - vm_compute. reflexivity.
  - exact (proj1 (chapter_on_first_line_leaves_page_one_blank
                    monospace 600 800 chapterText H0)).
Defined.

(* ================================================================== *)
(** ** Justification renderer *)
(* ================================================================== *)

Section JustifyFacts.
Variables margin yPosition fontSize chapterTitleFontSize : Q.
Variable font : PDFFont.
Variable textMaxWidth : Q.

Lemma drawWords_nonempty cs sp a words x :
  words <> [] -> drawWords yPosition font cs sp a words x <> [].
Proof. destruct words; [congruence | discriminate]. Qed.

Lemma gaps_succ (m : nat) :
  (inject_Z (Z.of_nat (S (S m)) - 1) == inject_Z (Z.of_nat (S m) - 1) + 1)%Q.
Proof.
  replace (Z.of_nat (S (S m)) - 1)%Z with ((Z.of_nat (S m) - 1) + 1)%Z by lia.
  now rewrite inject_Z_plus.
Qed.

(** Where the last word of the loop ends. *)
Lemma xExtent_drawWords cs sp a words : forall x x0,
  words <> [] ->
  (xExtent font x0 (drawWords yPosition font cs sp a words x)
   == x - x0 + sumWidths font cs words
      + inject_Z (Z.of_nat (List.length words) - 1) * (sp + a))%Q.
Proof.
  induction words as [|w rest IH]; intros x x0 Hne; [congruence|].
  destruct rest as [|w' rest'].
  - unfold xExtent. simpl. ring.
  - assert (Hrest : w' :: rest' <> []) by discriminate.
    specialize (IH (x + (widthOfTextAtSize font w cs + sp + a))%Q x0 Hrest).
    unfold xExtent in *.
    change (drawWords yPosition font cs sp a (w :: w' :: rest') x)
      with (DrawText w x yPosition cs
            :: drawWords yPosition font cs sp a (w' :: rest')
                 (x + (widthOfTextAtSize font w cs + sp + a))%Q).
    change (last (?o :: drawWords yPosition font cs sp a (w' :: rest') ?y) ?d)
      with (last (drawWords yPosition font cs sp a (w' :: rest') y) d).
    rewrite IH.
    change (List.length (w :: w' :: rest'))
      with (S (S (List.length rest'))).
    change (List.length (w' :: rest')) with (S (List.length rest')).
    rewrite gaps_succ.
    change (sumWidths font cs (w :: w' :: rest'))
      with (widthOfTextAtSize font w cs + sumWidths font cs (w' :: rest'))%Q.
    ring.
Qed.

(** The width invariant for body text, in exact arithmetic: a line that is
    not the last of its paragraph, has two words or more and is drawn at
    the size it was measured at (it is not a chapter title) reaches the
    available width, when the font is additive on it. The source divides
    and adds in doubles, where the same holds up to rounding. *)
Lemma justified_line_fills_available_width line isFirst :
  2 <= List.length (split " " line) ->
  AdditiveOn font fontSize line ->
  (xExtent font (lineXPos margin isFirst false)
     (drawJustifiedLine margin yPosition fontSize chapterTitleFontSize font
        textMaxWidth line false isFirst false)
   == availableWidth textMaxWidth isFirst false)%Q.
Proof.
  intros Hn Hadd. unfold drawJustifiedLine, currentFontSizeOf.
  rewrite xExtent_drawWords
    by (destruct (split " " line); simpl in *; [lia | discriminate]).
  unfold additionalSpaceWidthOf.
  set (k := (Z.of_nat (List.length (split " " line)) - 1)%Z).
  assert (Hk : (0 < k)%Z) by (unfold k; lia).
  apply Z.ltb_lt in Hk as Hkb. rewrite Hkb.
  unfold AdditiveOn in Hadd. fold k in Hadd. rewrite Hadd.
  assert (Hq : ~ (inject_Z k == 0)%Q).
  { intros E. unfold Qeq in E. simpl in E. lia. }
  field. exact Hq.
Qed.

End JustifyFacts.

(** The monospaced font is additive on every line. *)
Lemma split_nonempty (sep : ascii) (s : string) : split sep s <> [].
Proof.
  destruct s as [|c s]; simpl; [discriminate|].
  destruct (Ascii.eqb c sep); [discriminate|].
  destruct (split sep s); discriminate.
Qed.

Lemma length_split (s : string) :
  String.length s
  = totalLength (split " " s) + (List.length (split " " s) - 1).
Proof.
  induction s as [|c s IH]; [reflexivity|].
  pose proof (split_nonempty " " s) as Hne.
  simpl. destruct (Ascii.eqb c " ").
  - simpl. rewrite IH. destruct (split " " s); [congruence | simpl; lia].
  - destruct (split " " s) as [|w ws]; [congruence|].
    simpl in *. lia.
Qed.

Lemma sumWidths_monospace (size : Q) (ws : list string) :
  (sumWidths monospace size ws
   == size * inject_Z (Z.of_nat (totalLength ws)))%Q.
Proof.
  induction ws as [|w ws IH]; simpl.
  - ring.
  - rewrite IH, Nat2Z.inj_add, inject_Z_plus. ring.
Qed.

Lemma monospace_additive (size : Q) (line : string) :
  AdditiveOn monospace size line.
Proof.
  unfold AdditiveOn. rewrite sumWidths_monospace. simpl.
  rewrite (length_split line) at 1.
  pose proof (split_nonempty " " line) as Hne.
  set (ws := split " " line) in *.
  assert (E : Z.of_nat (totalLength ws + (List.length ws - 1))
              = (Z.of_nat (totalLength ws)
                 + (Z.of_nat (List.length ws) - 1))%Z).
  { destruct ws; [congruence | simpl List.length; lia]. }
  rewrite E, inject_Z_plus. ring.
Qed.

Lemma justified_line_fills_available_width_witness :
  2 <= List.length (split " " "the quick brown fox")
  /\ AdditiveOn monospace 14 "the quick brown fox"
  /\ (xExtent monospace (lineXPos 100 true false)
        (drawJustifiedLine 100 700 14 18 monospace 400
           "the quick brown fox" false true false)
      == availableWidth 400 true false)%Q.
Proof.
  assert (H1 : 2 <= List.length (split " " "the quick brown fox"))
    by (vm_compute; lia).
  assert (H2 : AdditiveOn monospace 14 "the quick brown fox")
    by (vm_compute; reflexivity).
  split; [exact H1 | split; [exact H2 |]].
  exact (justified_line_fills_available_width 100 700 14 18 monospace 400
           "the quick brown fox" true H1 H2).
Defined.

(** C9. A chapter heading that wraps: its first line is a chapter title and
    not a paragraph's last line, so it is justified; the gaps are computed
    from the line's width at the body size (14) while the words are drawn
    and advanced at the title size (18). The words reach 480 from the
    line's origin, beyond the available width of 400. *)
Theorem chapter_title_line_overshoots_available_width :
  let ls := documentLines monospace 600 longTitleText in
  let ops := drawJustifiedLine 100 700 14 18 monospace 400
               "CHAPTER 1. THE LONG ROAD" false true true in
  ls = {| lines := ["CHAPTER 1. THE LONG ROAD"; "HOME AGAIN."];
          isLastLine := [false; true];
          isFirstLine := [true; false] |}
  /\ getNewChapterIndices (lines ls) = [0]
  /\ AdditiveOn monospace 14 "CHAPTER 1. THE LONG ROAD"
  /\ AdditiveOn monospace 18 "CHAPTER 1. THE LONG ROAD"
  /\ doc (laidOut monospace 600 800 longTitleText)
     = [ []; ops ++ [DrawText "HOME AGAIN." 100 660 14] ]
  /\ (availableWidth 400 true true == 400)%Q
  /\ (xExtent monospace (lineXPos 100 true true) ops == 480)%Q.
Proof. vm_compute. repeat split. Qed.

(* ================================================================== *)
(** ** Splitting and joining *)
(* ================================================================== *)

Section SplitFacts.
Variable sep : ascii.

Lemma str_app_assoc (a b c : string) :
  ((a ++ b) ++ c)%string = (a ++ b ++ c)%string.
Proof. induction a as [|x a IH]; simpl; [reflexivity | now rewrite IH]. Qed.

Lemma str_app_nil_r (a : string) : (a ++ EmptyString)%string = a.
Proof. induction a as [|x a IH]; simpl; [reflexivity | now rewrite IH]. Qed.

(** Joining the pieces with the separator gives the string back. *)
Lemma concat_split (s : string) :
  String.concat (String sep EmptyString) (split sep s) = s.
Proof.
  induction s as [|c s IH]; [reflexivity|].
  pose proof (split_nonempty sep s) as Hne.
  simpl. destruct (Ascii.eqb_spec c sep) as [->|Hc].
  - destruct (split sep s) as [|w ws]; [congruence|].
    simpl in *. now rewrite IH.
  - destruct (split sep s) as [|w ws]; [congruence|].
    destruct ws; simpl in *; now rewrite <- IH.
Qed.

(** No piece contains the separator. *)
Lemma split_lacks (s : string) :
  Forall (fun w => lacks sep w = true) (split sep s).
Proof.
  induction s as [|c s IH]; simpl.
  - constructor; [reflexivity | constructor].
  - destruct (Ascii.eqb c sep) eqn:E.
    + constructor; [reflexivity | exact IH].
    + destruct (split sep s) as [|w ws].
      * constructor; [simpl; now rewrite E | constructor].
      * inversion IH; subst. constructor; [simpl; now rewrite E | assumption].
Qed.

Lemma split_app (a b : string) :
  split sep (a ++ String sep b) = split sep a ++ split sep b.
Proof.
  induction a as [|c a IH]; simpl.
  - now rewrite Ascii.eqb_refl.
  - destruct (Ascii.eqb c sep); [now rewrite IH|].
    rewrite IH. pose proof (split_nonempty sep a) as Hne.
    destruct (split sep a); [congruence | reflexivity].
Qed.

Lemma split_lacking (w : string) :
  lacks sep w = true -> split sep w = [w].
Proof.
  induction w as [|c w IH]; [reflexivity|]. simpl. intros H.
  apply andb_true_iff in H as [Hc Hw]. apply negb_true_iff in Hc.
  now rewrite Hc, IH.
Qed.

(** Splitting a join of separator-free pieces gives the pieces back. *)
Lemma split_concat (ws : list string) :
  ws <> [] ->
  Forall (fun w => lacks sep w = true) ws ->
  split sep (String.concat (String sep EmptyString) ws) = ws.
Proof.
  induction ws as [|w ws IH]; [congruence|]. intros _ Hall.
  inversion Hall as [|? ? Hw Hws]; subst.
  destruct ws as [|w' ws'].
  - simpl. now apply split_lacking.
  - change (String.concat (String sep EmptyString) (w :: w' :: ws'))
      with (w ++ String sep
              (String.concat (String sep EmptyString) (w' :: ws')))%string.
    rewrite split_app, split_lacking, IH by (assumption || discriminate).
    reflexivity.
Qed.

Lemma split_single (s : string) :
  List.length (split sep s) = 1 -> lacks sep s = true.
Proof.
  induction s as [|c s IH]; [reflexivity|]. simpl.
  pose proof (split_nonempty sep s) as Hne.
  destruct (Ascii.eqb c sep) eqn:E.
  - destruct (split sep s); [congruence | discriminate].
  - destruct (split sep s) as [|w ws] eqn:Es; [congruence|].
    simpl. intros H. apply IH. simpl. exact H.
Qed.

End SplitFacts.

(** [splitTextIntoParagraphs] loses nothing: there is at least one
    paragraph, no paragraph contains a line feed, and joining the
    paragraphs with line feeds gives the text back. *)
Theorem splitTextIntoParagraphs_round_trip (textContent : string) :
  splitTextIntoParagraphs textContent <> []
  /\ Forall (fun paragraph => lacks "010" paragraph = true)
       (splitTextIntoParagraphs textContent)
  /\ String.concat newline (splitTextIntoParagraphs textContent)
     = textContent.
Proof.
  unfold splitTextIntoParagraphs, newline.
  split; [apply split_nonempty | split; [apply split_lacks|]].
  apply concat_split.
Qed.

(* ================================================================== *)
(** ** Chapter headings: indexing, capitalisation and title detection *)
(* ================================================================== *)

Section ChapterFacts.

Lemma chapterIndicesFrom_increasing (ls : list string) : forall k,
  Forall (fun y => k <= y) (chapterIndicesFrom k ls)
  /\ increasingBelow (k + List.length ls) (chapterIndicesFrom k ls).
Proof.
  induction ls as [|l ls IH]; intros k; simpl; [auto|].
  destruct (IH (S k)) as [Hge Hinc].
  assert (Hge' : Forall (fun y => k < y) (chapterIndicesFrom (S k) ls)).
  { eapply Forall_impl; [|exact Hge]. simpl. intros; lia. }
  replace (k + S (List.length ls)) with (S k + List.length ls) by lia.
  destruct (matchesChapterPrefix l).
  - split.
    + constructor; [lia|]. eapply Forall_impl; [|exact Hge].
      simpl. intros; lia.
    + simpl. repeat split; [lia | exact Hge' | exact Hinc].
  - split; [|exact Hinc].
    eapply Forall_impl; [|exact Hge]. simpl. intros; lia.
Qed.

(** The recorded chapter starts come out in strictly increasing order,
    without repetition, and every one of them is an index of the line
    stream. *)
Theorem getNewChapterIndices_increasing (ls : list string) :
  increasingBelow (List.length ls) (getNewChapterIndices ls).
Proof. apply (chapterIndicesFrom_increasing ls 0). Qed.

Lemma greedyTitle_sound (s title : string) :
  greedyTitle s = Some title ->
  title <> EmptyString /\ singleLine title = true
  /\ exists rest, s = (title ++ "." ++ rest)%string.
Proof.
  revert title; induction s as [|c s IH]; intros title; [discriminate|].
  simpl. destruct (isLineTerminator c) eqn:Hc; [discriminate|].
  destruct (greedyTitle s) as [t|].
  - intros [= <-]. destruct (IH t eq_refl) as (_ & Hs & rest & ->).
    repeat split; [discriminate | simpl; now rewrite Hc, Hs |].
    now exists rest.
  - destruct s as [|d s']; [discriminate|].
    destruct (Ascii.eqb_spec d ".") as [->|Hd].
    + intros [= <-]. repeat split; [discriminate | simpl; now rewrite Hc |].
      now exists s'.
    + destruct d as [[] [] [] [] [] [] [] []]; try discriminate.
      congruence.
Qed.

Lemma upperChar_idempotent (c : ascii) : upperChar (upperChar c) = upperChar c.
Proof. destruct c as [[] [] [] [] [] [] [] []]; reflexivity. Qed.

Lemma upperChar_terminator (c : ascii) :
  isLineTerminator (upperChar c) = isLineTerminator c.
Proof. destruct c as [[] [] [] [] [] [] [] []]; reflexivity. Qed.

Lemma toUpperCase_idempotent (s : string) :
  toUpperCase (toUpperCase s) = toUpperCase s.
Proof.
  induction s as [|c s IH]; simpl;
    [reflexivity | now rewrite upperChar_idempotent, IH].
Qed.

Lemma toUpperCase_singleLine (s : string) :
  singleLine (toUpperCase s) = singleLine s.
Proof.
  induction s as [|c s IH]; simpl;
    [reflexivity | now rewrite upperChar_terminator, IH].
Qed.

Lemma toUpperCase_nonempty (s : string) :
  s <> EmptyString -> toUpperCase s <> EmptyString.
Proof. destruct s; [congruence | discriminate]. Qed.

(** What a successful match of the heading pattern gives. *)
Lemma chapterMatch_sound (p num title : string) :
  chapterMatch p = Some (num, title) ->
  exists ds rest,
    num = ("CHAPTER " ++ ds ++ ". ")%string
    /\ p = ("CHAPTER " ++ ds ++ ". " ++ title ++ "." ++ rest)%string
    /\ ds <> EmptyString /\ allDigits ds = true
    /\ title <> EmptyString /\ singleLine title = true.
Proof.
  unfold chapterMatch.
  destruct (chapterPrefix p) as [[ds r]|] eqn:Hp; [|discriminate].
  destruct (greedyTitle r) as [t|] eqn:Hg; [|discriminate].
  intros [= <- <-].
  apply chapterPrefix_spec in Hp as (-> & Hds & Hd).
  apply greedyTitle_sound in Hg as (Ht & Hs & rest & ->).
  exists ds, rest. repeat split; assumption.
Qed.

Lemma capitalized_form (ds title : string) :
  (("CHAPTER " ++ ds ++ ". ") ++ toUpperCase title ++ ".")%string
  = ("CHAPTER " ++ ds ++ ". " ++ toUpperCase title ++ ".")%string.
Proof.
  change ("CHAPTER " ++ ds ++ ". ")%string
    with ("CHAPTER " ++ (ds ++ ". "))%string.
  now rewrite !str_app_assoc.
Qed.

(** Capitalising a paragraph a second time changes nothing. *)
Theorem capitalizeChapterTitle_idempotent (paragraph : string) :
  capitalizeChapterTitle (capitalizeChapterTitle paragraph)
  = capitalizeChapterTitle paragraph.
Proof.
  destruct (chapterMatch paragraph) as [[num title]|] eqn:Hm.
  - assert (E : capitalizeChapterTitle paragraph
                = (num ++ toUpperCase title ++ ".")%string)
      by (unfold capitalizeChapterTitle; now rewrite Hm).
    rewrite E.
    apply chapterMatch_sound in Hm
      as (ds & rest & -> & _ & Hds & Hd & Ht & Hs).
    rewrite capitalized_form.
    assert (F : chapterMatch
                  ("CHAPTER " ++ ds ++ ". " ++ toUpperCase title ++ ".")
                = Some (("CHAPTER " ++ ds ++ ". ")%string,
                        toUpperCase title)).
    { unfold chapterMatch.
      rewrite (proj2 (chapterPrefix_spec _ ds (toUpperCase title ++ ".")))
        by auto.
      rewrite greedyTitle_up_to_final_period;
        [| now apply toUpperCase_nonempty
         | now rewrite toUpperCase_singleLine].
      reflexivity. }
    unfold capitalizeChapterTitle. rewrite F.
    now rewrite toUpperCase_idempotent, !str_app_assoc.
  - assert (E : capitalizeChapterTitle paragraph = paragraph)
      by (unfold capitalizeChapterTitle; now rewrite Hm).
    now rewrite !E.
Qed.

(** Capitalisation does not change whether a paragraph is recognised as a
    chapter start: the indexer sees the same chapters before and after. *)
Theorem capitalizeChapterTitle_keeps_chapter_prefix (paragraph : string) :
  matchesChapterPrefix (capitalizeChapterTitle paragraph)
  = matchesChapterPrefix paragraph.
Proof.
  unfold capitalizeChapterTitle.
  destruct (chapterMatch paragraph) as [[num title]|] eqn:Hm; [|reflexivity].
  apply chapterMatch_sound in Hm as (ds & rest & -> & -> & Hds & Hd & _).
  rewrite capitalized_form.
  assert (H1 : matchesChapterPrefix
                 ("CHAPTER " ++ ds ++ ". " ++ toUpperCase title ++ ".")
               = true).
  { apply matchesChapterPrefix_spec. exists ds, (toUpperCase title ++ ".")%string.
    auto. }
  assert (H2 : matchesChapterPrefix
                 ("CHAPTER " ++ ds ++ ". " ++ title ++ "." ++ rest) = true).
  { apply matchesChapterPrefix_spec. exists ds, (title ++ "." ++ rest)%string.
    auto. }
  now rewrite H1, H2.
Qed.

(** A paragraph that does not begin like a chapter heading is returned
    unchanged. *)
Theorem capitalizeChapterTitle_leaves_other_text (paragraph : string) :
  ~ ChapterPrefixed paragraph ->
  capitalizeChapterTitle paragraph = paragraph.
Proof.
  intros Hn. unfold capitalizeChapterTitle.
  destruct (chapterMatch paragraph) as [[num title]|] eqn:Hm; [|reflexivity].
  apply chapterMatch_sound in Hm as (ds & rest & _ & -> & Hds & Hd & _).
  exfalso. apply Hn. exists ds, (title ++ "." ++ rest)%string. auto.
Qed.

(** A heading with no period after its prefix (so without the closing
    period) is returned unchanged. *)
Theorem capitalizeChapterTitle_needs_a_period (ds rest : string) :
  ds <> EmptyString -> allDigits ds = true ->
  lacks "." rest = true ->
  capitalizeChapterTitle ("CHAPTER " ++ ds ++ ". " ++ rest)
  = ("CHAPTER " ++ ds ++ ". " ++ rest)%string.
Proof.
  intros Hds Hd Hl. unfold capitalizeChapterTitle, chapterMatch.
  assert (E : chapterPrefix ("CHAPTER " ++ ds ++ ". " ++ rest)
              = Some (ds, rest)) by (apply chapterPrefix_spec; auto).
  rewrite E.
  destruct (greedyTitle rest) as [t|] eqn:Hg; [|reflexivity].
  apply greedyTitle_sound in Hg as (_ & _ & r & ->).
  exfalso. clear - Hl. induction t as [|c t IH]; simpl in Hl.
  - discriminate.
  - apply andb_true_iff in Hl as [_ Hl]. auto.
Qed.

Lemma trimStart_nonspace (c : ascii) (s : string) :
  isWhitespace c = false -> trimStart (String c s) = String c s.
Proof. intros H. simpl. now rewrite H. Qed.

(** Trimming the end never reaches back past a character that is not
    whitespace. *)
Lemma trimEnd_after_nonspace (a : string) (c : ascii) (b : string) :
  isWhitespace c = false ->
  trimEnd (a ++ String c b) = (a ++ String c (trimEnd b))%string.
Proof.
  intros Hc. induction a as [|x a IH]; simpl.
  - now rewrite Hc.
  - rewrite IH. destruct a; simpl; now rewrite andb_false_r.
Qed.

Lemma testChapterTitle_of_prefixed (line : string) :
  ChapterPrefixed line -> testChapterTitle (trim line) = true.
Proof.
  intros (ds & rest & -> & Hds & Hd). unfold trim.
  assert (E : ("CHAPTER " ++ ds ++ ". " ++ rest)%string
              = (("CHAPTER " ++ ds) ++ String "." (String " " rest))%string)
    by (now rewrite str_app_assoc).
  change (trimStart ("CHAPTER " ++ ds ++ ". " ++ rest))
    with ("CHAPTER " ++ ds ++ ". " ++ rest)%string.
  rewrite E, trimEnd_after_nonspace, str_app_assoc by reflexivity.
  unfold testChapterTitle.
  change (stripPrefixCI "CHAPTER "
            ("CHAPTER " ++ ds ++ String "." (trimEnd (String " " rest))))
    with (Some (ds ++ String "." (trimEnd (String " " rest)))%string).
  cbv beta iota.
  rewrite spanDigits_unique by (assumption || reflexivity).
  apply truthy_nonempty in Hds. now rewrite Hds.
Qed.

(** Every chapter start the indexer records is treated as a chapter title
    by the pagination engine: the line passes the engine's own title test,
    so it is drawn at the title size, without indent, with the extra line
    of space below it. *)
Theorem recorded_chapter_start_is_chapter_title
    (ls : list string) (i : nat) (line : string) :
  In i (getNewChapterIndices ls) ->
  nth_error ls i = Some line ->
  isChapterTitleAt (getNewChapterIndices ls) i line = true.
Proof.
  intros Hin Hnth. unfold isChapterTitleAt.
  apply andb_true_iff. split; [now apply includes_In|].
  apply testChapterTitle_of_prefixed.
  apply chapterIndicesFrom_spec in Hin as (j & l & Hj & Hl & Hm).
  simpl in Hj. subst j. rewrite Hnth in Hl. injection Hl as <-.
  now apply matchesChapterPrefix_spec.
Qed.

End ChapterFacts.

Lemma capitalizeChapterTitle_leaves_other_text_witness :
  ~ ChapterPrefixed "Hello world."
  /\ capitalizeChapterTitle "Hello world." = "Hello world.".
Proof.
  assert (H : ~ ChapterPrefixed "Hello world.").
  { intros Hp. apply matchesChapterPrefix_spec in Hp. discriminate. }
  split; [exact H|].
  exact (capitalizeChapterTitle_leaves_other_text "Hello world." H).
Defined.

Lemma capitalizeChapterTitle_needs_a_period_witness :
  "1" <> EmptyString /\ allDigits "1" = true
  /\ lacks "." "the beginning" = true
  /\ capitalizeChapterTitle "CHAPTER 1. the beginning"
     = "CHAPTER 1. the beginning".
Proof.
  assert (H : "1" <> EmptyString) by discriminate.
  repeat (split; [assumption || reflexivity|]).
  exact (capitalizeChapterTitle_needs_a_period "1" "the beginning"
           H eq_refl eq_refl).
Defined.

Lemma recorded_chapter_start_is_chapter_title_witness :
  In 1 (getNewChapterIndices (lines chapterSample))
  /\ nth_error (lines chapterSample) 1 = Some "CHAPTER 1. One."
  /\ isChapterTitleAt (getNewChapterIndices (lines chapterSample)) 1
       "CHAPTER 1. One." = true.
Proof.
  assert (H1 : In 1 (getNewChapterIndices (lines chapterSample)))
    by (vm_compute; left; reflexivity).
  assert (H2 : nth_error (lines chapterSample) 1 = Some "CHAPTER 1. One.")
    by reflexivity.
  split; [exact H1 | split; [exact H2 |]].
  exact (recorded_chapter_start_is_chapter_title (lines chapterSample) 1
           "CHAPTER 1. One." H1 H2).
Defined.

(* ================================================================== *)
(** ** Orphan correction keeps every word *)
(* ================================================================== *)

Section OrphanFacts.

Lemma assign_middle {A} (pre : list A) (a v : A) (post : list A) :
  assign (List.length pre) v (pre ++ a :: post) = pre ++ v :: post.
Proof. induction pre as [|h t IH]; simpl; [reflexivity | now rewrite IH]. Qed.

Lemma pair_at {A} (ls : list A) : forall j,
  S j < List.length ls ->
  exists pre a b post, ls = pre ++ a :: b :: post /\ List.length pre = j.
Proof.
  induction ls as [|h t IH]; intros j Hj; simpl in Hj; [lia|].
  destruct j as [|j].
  - destruct t as [|b post]; simpl in Hj; [lia|].
    now exists [], h, b, post.
  - destruct (IH j ltac:(lia)) as (pre & a & b & post & -> & Hlen).
    exists (h :: pre), a, b, post. simpl. now rewrite Hlen.
Qed.

Lemma filter_truthy_repeat (k : nat) :
  filter truthy (repeat EmptyString k) = [].
Proof. induction k; simpl; auto. Qed.

(** The words of a re-joined list of space-free words. *)
Lemma lineWords_join (ws : list string) :
  Forall (fun w => lacks " " w = true) ws ->
  lineWords (join ws) = filter truthy ws.
Proof.
  intros Hall. unfold lineWords, join. destruct ws as [|w ws].
  - reflexivity.
  - now rewrite split_concat by (discriminate || assumption).
Qed.

Lemma wordsOf_app (a b : list string) :
  wordsOf (a ++ b) = wordsOf a ++ wordsOf b.
Proof. apply flat_map_app. Qed.

Lemma orphanStep_length isLast i ls :
  List.length (orphanStep isLast i ls) = List.length ls.
Proof.
  unfold orphanStep. split_ifs; rewrite ?length_assign; reflexivity.
Qed.

(** One step of the loop moves a word between two neighbouring lines and
    keeps the sequence of words. *)
Lemma orphanStep_words isLast i ls :
  1 <= i -> i < List.length ls ->
  wordsOf (orphanStep isLast i ls) = wordsOf ls.
Proof.
  intros H1 Hi. destruct i as [|j]; [lia|].
  destruct (pair_at ls j Hi) as (pre & prev & cur & post & -> & Hlen).
  subst j. unfold orphanStep.
  replace (S (List.length pre) - 1) with (List.length pre) by lia.
  assert (Enth : forall x,
            nth (S (List.length pre)) (pre ++ x :: cur :: post) EmptyString
            = cur).
  { intros x. rewrite app_nth2 by lia.
    replace (S (List.length pre) - List.length pre) with 1 by lia.
    reflexivity. }
  rewrite Enth, nth_middle.
  destruct (nth (S (List.length pre)) isLast false); [|reflexivity].
  destruct (List.length (split " " cur) =? 1) eqn:E1; [|reflexivity].
  simpl andb. cbv iota.
  destruct (truthy (popped (split " " prev))) eqn:T; [|reflexivity].
  apply Nat.eqb_eq, split_single in E1.
  assert (Hws : split " " prev
                = removelast (split " " prev) ++ [popped (split " " prev)])
    by (apply app_removelast_last, split_nonempty).
  assert (Hlack : Forall (fun w => lacks " " w = true) (split " " prev))
    by apply split_lacks.
  remember (removelast (split " " prev)) as init eqn:Einit.
  remember (popped (split " " prev)) as lastWord eqn:Elast.
  clear Einit Elast. rewrite Hws in Hlack. apply Forall_app in Hlack as [Hinit Hlast].
  apply Forall_inv in Hlast.
  rewrite assign_middle, Enth.
  replace (pre ++ join init :: cur :: post)
    with ((pre ++ [join init]) ++ cur :: post)
    by (now rewrite <- app_assoc).
  replace (S (List.length pre))
    with (List.length (pre ++ [join init]))
    by (rewrite length_app; simpl; lia).
  rewrite assign_middle, <- app_assoc. simpl app.
  rewrite !wordsOf_app. f_equal.
  change (wordsOf (?a :: ?b :: post))
    with (lineWords a ++ lineWords b ++ wordsOf post).
  rewrite !app_assoc. f_equal.
  rewrite lineWords_join by assumption.
  unfold lineWords.
  change (lastWord ++ " " ++ cur)%string
    with (lastWord ++ String " " cur)%string.
  rewrite split_app, !split_lacking by assumption.
  rewrite Hws, !filter_app. simpl.
  rewrite T. now rewrite <- app_assoc.
Qed.

Lemma orphanLoop_keeps isLast n : forall i ls,
  1 <= i -> i + n <= List.length ls ->
  wordsOf (orphanLoop isLast n i ls) = wordsOf ls
  /\ List.length (orphanLoop isLast n i ls) = List.length ls.
Proof.
  induction n as [|n IH]; intros i ls H1 Hn; simpl; [auto|].
  destruct (IH (S i) (orphanStep isLast i ls)) as [Hw Hl];
    [lia | rewrite orphanStep_length; lia |].
  rewrite Hw, Hl, orphanStep_length, orphanStep_words by lia. auto.
Qed.

Lemma handleOrphans_keeps (ls : list string) (isLast : list bool) :
  wordsOf (handleOrphans ls isLast) = wordsOf ls
  /\ List.length (handleOrphans ls isLast) = List.length ls.
Proof.
  unfold handleOrphans. destruct (List.length ls <? 2) eqn:E; [auto|].
  apply Nat.ltb_ge in E. apply orphanLoop_keeps; lia.
Qed.

(** Orphan correction never loses, repeats or reorders a word, whatever
    the lines and flags are, and it keeps the number of lines, so every
    line keeps its flags. *)
Theorem handleOrphans_keeps_words (ls : list string) (isLast : list bool) :
  wordsOf (handleOrphans ls isLast) = wordsOf ls
  /\ List.length (handleOrphans ls isLast) = List.length ls.
Proof. apply handleOrphans_keeps. Qed.

End OrphanFacts.

(* ================================================================== *)
(** ** Line breaking keeps the arrays aligned and every word in order *)
(* ================================================================== *)

Section TrimFacts.

Lemma lineWords_space (s : string) :
  lineWords (String " " s) = lineWords s.
Proof. reflexivity. Qed.

Lemma spaceOnly_whitespace c :
  (negb (isWhitespace c) || Ascii.eqb c " ") = true ->
  isWhitespace c = true -> c = " "%char.
Proof.
  intros H Hw. rewrite Hw in H. simpl in H. now apply Ascii.eqb_eq.
Qed.

Lemma spaceOnly_trimStart (s : string) :
  spaceOnly s = true -> spaceOnly (trimStart s) = true.
Proof.
  induction s as [|c s IH]; [reflexivity|]. intros H. simpl.
  destruct (isWhitespace c); [|exact H].
  simpl in H. apply andb_true_iff in H as [_ H]. auto.
Qed.

Lemma lineWords_trimStart (s : string) :
  spaceOnly s = true -> lineWords (trimStart s) = lineWords s.
Proof.
  induction s as [|c s IH]; [reflexivity|]. intros H. simpl in *.
  apply andb_true_iff in H as [Hc Hs].
  pose proof (spaceOnly_whitespace c Hc) as Hsp.
  destruct (isWhitespace c) eqn:Hw; [|reflexivity].
  rewrite (Hsp eq_refl), lineWords_space. auto.
Qed.

(** Trimming the end removes trailing separators only: the pieces of the
    trimmed string are the pieces of the string without some trailing
    empty ones. *)
Lemma split_trimEnd (s : string) :
  spaceOnly s = true ->
  exists k,
    split " " s = split " " (trimEnd s) ++ repeat EmptyString k.
Proof.
  induction s as [|c s IH]; intros H.
  - exists 0. reflexivity.
  - simpl in H. apply andb_true_iff in H as [Hc Hs].
    destruct (IH Hs) as [k Hk]. simpl trimEnd.
    pose proof (split_nonempty " " (trimEnd s)) as Hne.
    pose proof (spaceOnly_whitespace c Hc) as Hsp0.
    destruct (isWhitespace c) eqn:Hw.
    + rewrite (Hsp0 eq_refl) in *.
      change (split " " (String " " s)) with (EmptyString :: split " " s).
      rewrite Hk. destruct (trimEnd s) as [|d t] eqn:Et; simpl.
      * now exists (S k).
      * exists k. reflexivity.
    + assert (Hsp : Ascii.eqb c " " = false).
      { destruct (Ascii.eqb_spec c " ") as [->|]; [discriminate | reflexivity]. }
      simpl andb. cbv iota. exists k. simpl. rewrite Hsp, Hk.
      destruct (split " " (trimEnd s)); [congruence | reflexivity].
Qed.

Lemma lineWords_trimEnd (s : string) :
  spaceOnly s = true -> lineWords (trimEnd s) = lineWords s.
Proof.
  intros H. destruct (split_trimEnd s H) as [k Hk]. unfold lineWords.
  now rewrite Hk, filter_app, filter_truthy_repeat, app_nil_r.
Qed.

Lemma lineWords_trim (s : string) :
  spaceOnly s = true -> lineWords (trim s) = lineWords s.
Proof.
  intros H. unfold trim.
  now rewrite lineWords_trimEnd, lineWords_trimStart
    by auto using spaceOnly_trimStart.
Qed.

Lemma noWhitespace_spaceOnly (w : string) :
  noWhitespace w = true -> spaceOnly w = true.
Proof.
  induction w as [|c w IH]; [reflexivity|]. simpl. intros H.
  apply andb_true_iff in H as [Hc Hw]. now rewrite Hc, IH.
Qed.

Lemma noWhitespace_lacks_space (w : string) :
  noWhitespace w = true -> lacks " " w = true.
Proof.
  induction w as [|c w IH]; [reflexivity|]. simpl. intros H.
  apply andb_true_iff in H as [Hc Hw]. rewrite IH by assumption.
  destruct (Ascii.eqb_spec c " ") as [->|]; [discriminate | reflexivity].
Qed.

Lemma spaceOnly_app (a b : string) :
  spaceOnly a = true -> spaceOnly b = true -> spaceOnly (a ++ b) = true.
Proof.
  induction a as [|c a IH]; simpl; [auto|]. intros H Hb.
  apply andb_true_iff in H as [Hc Ha]. now rewrite Hc, IH.
Qed.

Lemma hasInk_trimStart (s : string) : hasInk (trimStart s) = hasInk s.
Proof.
  induction s as [|c s IH]; [reflexivity|]. simpl.
  destruct (isWhitespace c) eqn:Hw; [exact IH | simpl; now rewrite Hw].
Qed.

Lemma hasInk_trimEnd (s : string) : hasInk (trimEnd s) = hasInk s.
Proof.
  induction s as [|c s IH]; [reflexivity|]. simpl.
  destruct (isWhitespace c) eqn:Hw; simpl.
  - destruct (trimEnd s) eqn:Et; simpl in *; [now rewrite <- IH|].
    now rewrite Hw, <- IH.
  - now rewrite Hw.
Qed.

(** A string with a character that is not whitespace does not trim to the
    empty string. *)
Lemma trim_ink (s : string) :
  hasInk s = true -> (0 <? String.length (trim s)) = true.
Proof.
  intros H. assert (Ht : hasInk (trim s) = true)
    by (unfold trim; now rewrite hasInk_trimEnd, hasInk_trimStart).
  destruct (trim s); [discriminate | reflexivity].
Qed.

Lemma hasInk_app_r (a b : string) :
  hasInk b = true -> hasInk (a ++ b) = true.
Proof.
  intros H. induction a as [|c a IH]; simpl; [exact H|].
  now rewrite IH, orb_true_r.
Qed.

End TrimFacts.

Section WrapFacts.
Variable font : PDFFont.
Variable fontSize : Q.
Variable textMaxWidth : Q.

Local Abbreviation addWord' := (addWord font fontSize textMaxWidth).
Local Abbreviation wrap := (wrapParagraph font fontSize textMaxWidth).

Lemma wordsOf_push text l f o :
  wordsOf (lines (push text l f o)) = wordsOf (lines o) ++ lineWords text.
Proof. simpl. rewrite wordsOf_app. simpl. now rewrite app_nil_r. Qed.

Lemma addWord_words w word :
  noWhitespace word = true ->
  spaceOnly (currentLine w) = true ->
  wordsOf (lines (out (addWord' w word)))
    ++ lineWords (currentLine (addWord' w word))
  = wordsOf (lines (out w)) ++ lineWords (currentLine w)
      ++ filter truthy [word]
  /\ spaceOnly (currentLine (addWord' w word)) = true.
Proof.
  intros Hw Hc. unfold addWord, addWordToLine.
  pose proof (noWhitespace_lacks_space word Hw) as Hl.
  pose proof (noWhitespace_spaceOnly word Hw) as Hs.
  assert (Hword : lineWords word = filter truthy [word])
    by (unfold lineWords; now rewrite split_lacking).
  destruct (Qleb _ _); cbn [out currentLine].
  - destruct (currentLine w) as [|c cs] eqn:Ec.
    + simpl append. rewrite Hword. auto.
    + cbn [truthy].
      change (String c cs ++ " " ++ word)%string
        with (String c cs ++ String " " word)%string.
      split.
      * unfold lineWords at 1. rewrite split_app, filter_app.
        fold (lineWords (String c cs)). fold (lineWords word).
        now rewrite Hword.
      * apply spaceOnly_app; [exact Hc | exact Hs].
  - rewrite wordsOf_push, lineWords_trim, Hword, <- app_assoc by assumption.
    auto.
Qed.

Lemma fold_addWord_words wordArray : forall w,
  Forall (fun word => noWhitespace word = true) wordArray ->
  spaceOnly (currentLine w) = true ->
  let w' := fold_left addWord' wordArray w in
  wordsOf (lines (out w')) ++ lineWords (currentLine w')
  = wordsOf (lines (out w)) ++ lineWords (currentLine w)
      ++ filter truthy wordArray
  /\ spaceOnly (currentLine w') = true.
Proof.
  induction wordArray as [|word rest IH]; intros w Hall Hc; cbn [fold_left].
  - simpl. now rewrite !app_nil_r.
  - inversion Hall as [|? ? Hw Hrest]; subst.
    destruct (addWord_words w word Hw Hc) as [E Hc'].
    destruct (IH (addWord' w word) Hrest Hc') as [E' Hc''].
    split; [|exact Hc''].
    rewrite E', app_assoc, E. simpl. rewrite <- !app_assoc.
    destruct (truthy word); reflexivity.
Qed.

Lemma wrapParagraph_words o wordArray :
  Forall (fun word => noWhitespace word = true) wordArray ->
  wordsOf (lines (wrap o wordArray))
  = wordsOf (lines o) ++ filter truthy wordArray.
Proof.
  intros Hall. unfold wrapParagraph.
  destruct (fold_addWord_words wordArray
              {| out := o; currentLine := EmptyString;
                 isFirstLineOfParagraph := true |} Hall eq_refl)
    as [E Hc].
  cbn [out currentLine] in E. simpl app in E.
  set (w' := fold_left addWord' wordArray _) in *.
  destruct (0 <? String.length (trim (currentLine w'))) eqn:Et.
  - unfold processLastLine.
    now rewrite wordsOf_push, lineWords_trim.
  - rewrite <- E.
    assert (Hn : lineWords (currentLine w') = []).
    { rewrite <- lineWords_trim by assumption.
      destruct (trim (currentLine w')); [reflexivity | discriminate]. }
    now rewrite Hn, app_nil_r.
Qed.

Lemma wrapAll_words paragraphs :
  Forall (Forall (fun word => noWhitespace word = true)) paragraphs ->
  wordsOf (lines (wrapAll font fontSize textMaxWidth paragraphs))
  = filter truthy (List.concat paragraphs).
Proof.
  unfold wrapAll.
  assert (G : forall o,
    Forall (Forall (fun word => noWhitespace word = true)) paragraphs ->
    wordsOf (lines (fold_left wrap paragraphs o))
    = wordsOf (lines o) ++ filter truthy (List.concat paragraphs)).
  { induction paragraphs as [|wa ps IH]; intros o Hall; simpl.
    - now rewrite app_nil_r.
    - inversion Hall as [|? ? Hwa Hps]; subst.
      rewrite IH, wrapParagraph_words, filter_app, app_assoc by assumption.
      reflexivity. }
  intros Hall. now rewrite G.
Qed.

Lemma createLines_words (paragraphs : list (list string)) :
  Forall (Forall (fun word => noWhitespace word = true)) paragraphs ->
  wordsOf (lines (createLines font fontSize textMaxWidth paragraphs))
  = filter truthy (List.concat paragraphs).
Proof.
  intros Hall. unfold createLines. cbn [lines].
  rewrite (proj1 (handleOrphans_keeps _ _)).
  now apply wrapAll_words.
Qed.

(** Line breaking keeps every word: when no word contains whitespace (as
    for the word arrays [split(/\s+/)] yields), the non-empty words of the
    lines, read in order, are the non-empty words of the paragraphs in
    order, whatever the font and the width. *)
Theorem createLines_keeps_words (paragraphs : list (list string)) :
  Forall (Forall (fun word => noWhitespace word = true)) paragraphs ->
  wordsOf (lines (createLines font fontSize textMaxWidth paragraphs))
  = filter truthy (List.concat paragraphs).
Proof.
  apply createLines_words.
Qed.

(* ---------------------------------------------------------------- *)
(** *** The flags *)

Lemma push_aligned text l f o : Aligned o -> Aligned (push text l f o).
Proof.
  intros [H1 H2]. unfold Aligned. simpl. rewrite !length_app. simpl. lia.
Qed.

Lemma push_open text l f o :
  OpenBlocks o f -> OpenBlocks (push text l f o) l.
Proof.
  intros (Ha & Hadj & Hfirst & Hlast).
  pose proof Ha as [Hl1 Hl2].
  split; [now apply push_aligned|]. simpl. rewrite !length_app. simpl.
  split; [|split].
  - intros i Hi.
    destruct (Nat.eq_dec (S i) (List.length (lines o))) as [E|E].
    + rewrite app_nth2 by lia. rewrite Hl2, E, Nat.sub_diag. simpl.
      rewrite app_nth1 by lia.
      rewrite <- Hlast.
      replace (List.length (lines o) - 1) with i by lia.
      apply nth_indep. lia.
    + rewrite !app_nth1 by lia. apply Hadj. lia.
  - intros _. destruct (lines o) as [|x xs] eqn:El.
    + simpl in *. destruct (isFirstLine o); simpl in *; [|lia].
      destruct (isLastLine o); simpl in *; [|lia]. now subst.
    + rewrite app_nth1 by (rewrite Hl2; simpl; lia).
      apply Hfirst. discriminate.
  - replace (List.length (lines o) + 1 - 1) with (List.length (isLastLine o))
      by lia.
    now rewrite nth_middle.
Qed.

Lemma addWord_open w word :
  hasInk word = true ->
  OpenBlocks (out w) (isFirstLineOfParagraph w) ->
  OpenBlocks (out (addWord' w word))
    (isFirstLineOfParagraph (addWord' w word))
  /\ hasInk (currentLine (addWord' w word)) = true.
Proof.
  intros Hink Ho. unfold addWord, addWordToLine.
  destruct (Qleb _ _); cbn [out currentLine isFirstLineOfParagraph].
  - split; [exact Ho|]. rewrite <- str_app_assoc. now apply hasInk_app_r.
  - split; [now apply push_open | exact Hink].
Qed.

Lemma wrapParagraph_open o wordArray :
  Forall (fun word => hasInk word = true) wordArray ->
  OpenBlocks o true -> OpenBlocks (wrap o wordArray) true.
Proof.
  intros Hall Ho. unfold wrapParagraph.
  destruct wordArray as [|word rest].
  - simpl. exact Ho.
  - inversion Hall as [|? ? Hw Hrest]; subst. simpl fold_left.
    assert (G : forall ws w,
      Forall (fun word => hasInk word = true) ws ->
      OpenBlocks (out w) (isFirstLineOfParagraph w) ->
      hasInk (currentLine w) = true ->
      OpenBlocks (out (fold_left addWord' ws w))
        (isFirstLineOfParagraph (fold_left addWord' ws w))
      /\ hasInk (currentLine (fold_left addWord' ws w)) = true).
    { induction ws as [|x xs IH]; intros w Hxs Hw0 Hi; simpl; [auto|].
      inversion Hxs as [|? ? Hx Hxs']; subst.
      destruct (addWord_open w x Hx Hw0) as [Ha Hb].
      apply IH; assumption. }
    destruct (addWord_open
                {| out := o; currentLine := EmptyString;
                   isFirstLineOfParagraph := true |} word Hw Ho)
      as [H1 H2].
    destruct (G rest _ Hrest H1 H2) as [H3 H4].
    rewrite (trim_ink _ H4). now apply push_open.
Qed.

Lemma wrapAll_open paragraphs :
  Forall (Forall (fun word => hasInk word = true)) paragraphs ->
  OpenBlocks (wrapAll font fontSize textMaxWidth paragraphs) true.
Proof.
  unfold wrapAll.
  assert (G : forall o,
    Forall (Forall (fun word => hasInk word = true)) paragraphs ->
    OpenBlocks o true -> OpenBlocks (fold_left wrap paragraphs o) true).
  { induction paragraphs as [|wa ps IH]; intros o Hall Ho; simpl; [exact Ho|].
    inversion Hall; subst. apply IH; [assumption|].
    now apply wrapParagraph_open. }
  intros Hall. apply G; [exact Hall|].
  repeat split; simpl; intros; (lia || congruence).
Qed.

(** When every word has a character that is not whitespace, the flags
    [createLines] returns cut the line stream into paragraphs: the three
    arrays have one length, the first line is flagged first, the final
    line is flagged last, and a line is flagged first exactly when the
    line before it is flagged last. *)
Theorem createLines_flags_form_paragraphs (paragraphs : list (list string)) :
  Forall (Forall (fun word => hasInk word = true)) paragraphs ->
  ParagraphBlocks (createLines font fontSize textMaxWidth paragraphs).
Proof.
  intros Hall.
  destruct (wrapAll_open paragraphs Hall) as (Ha & Hadj & Hfirst & Hlast).
  pose proof (proj2 (handleOrphans_keeps
    (lines (wrapAll font fontSize textMaxWidth paragraphs))
    (isLastLine (wrapAll font fontSize textMaxWidth paragraphs)))) as Hlen.
  unfold ParagraphBlocks, Aligned, createLines. cbn [lines isLastLine isFirstLine].
  rewrite Hlen. destruct Ha as [Hl1 Hl2].
  split; [auto|]. split; [exact Hadj|].
  intros Hne.
  assert (Hn : lines (wrapAll font fontSize textMaxWidth paragraphs) <> []).
  { intros E. apply Hne. apply length_zero_iff_nil.
    rewrite Hlen, E. reflexivity. }
  split; [now apply Hfirst|].
  rewrite <- Hlast. apply nth_indep.
  destruct (lines (wrapAll font fontSize textMaxWidth paragraphs));
    [congruence | simpl in *; lia].
Qed.

(** Whatever the words are, the three arrays [createLines] returns have
    the same length, so the engine finds a flag for every line. *)
Theorem createLines_arrays_aligned (paragraphs : list (list string)) :
  Aligned (createLines font fontSize textMaxWidth paragraphs).
Proof.
  assert (G : forall ps o, Aligned o -> Aligned (fold_left wrap ps o)).
  { induction ps as [|wa ps IH]; intros o Ho; simpl; [exact Ho|].
    apply IH. unfold wrapParagraph.
    assert (F : forall ws w, Aligned (out w) ->
                Aligned (out (fold_left addWord' ws w))).
    { induction ws as [|x xs IHx]; intros w Hw; simpl; [exact Hw|].
      apply IHx. unfold addWord, addWordToLine.
      destruct (Qleb _ _); cbn [out]; [exact Hw | now apply push_aligned]. }
    destruct (0 <? _); [apply push_aligned|]; now apply F. }
  unfold createLines, Aligned. cbn [lines isLastLine isFirstLine].
  rewrite (proj2 (handleOrphans_keeps _ _)).
  apply (G paragraphs emptyStream). split; reflexivity.
Qed.

End WrapFacts.

(* ================================================================== *)
(** ** The engine draws every line once, in order *)
(* ================================================================== *)

Section OrderFacts.
Variable lines : list string.
Variables margin pageHeight fontSize chapterTitleFontSize : Q.
Variable font : PDFFont.
Variables lineHeight paragraphBreakHeight textMaxWidth : Q.
Variable newChapterIndices : list nat.
Variables isLastLine isFirstLine : list bool.

Local Abbreviation breaks :=
  (pageBreaks lines margin pageHeight lineHeight newChapterIndices
     isLastLine isFirstLine).
Local Abbreviation place :=
  (placeLine margin fontSize chapterTitleFontSize font lineHeight
     paragraphBreakHeight textMaxWidth newChapterIndices isLastLine
     isFirstLine).
Local Abbreviation step :=
  (processLine lines margin pageHeight fontSize chapterTitleFontSize font
     lineHeight paragraphBreakHeight textMaxWidth newChapterIndices
     isLastLine isFirstLine).
Local Abbreviation run :=
  (drawFrom lines margin pageHeight fontSize chapterTitleFontSize font
     lineHeight paragraphBreakHeight textMaxWidth newChapterIndices
     isLastLine isFirstLine).

Lemma opTexts_app (a b : list PageOp) :
  opTexts (a ++ b) = opTexts a ++ opTexts b.
Proof. apply flat_map_app. Qed.

Lemma opTexts_drawWords y cs sp a words : forall x,
  opTexts (drawWords y font cs sp a words x) = words.
Proof.
  induction words as [|w ws IH]; intros x; simpl; [reflexivity|].
  unfold opTexts in IH. now rewrite IH.
Qed.

Lemma opTexts_drawJustifiedLine y line isLast isFirst isTitle :
  opTexts (drawJustifiedLine margin y fontSize chapterTitleFontSize font
             textMaxWidth line isLast isFirst isTitle)
  = if isLast then [line] else split " " line.
Proof.
  unfold drawJustifiedLine. destruct isLast; [reflexivity|].
  apply opTexts_drawWords.
Qed.

Lemma concat_addPage (d : PDFDocument) : List.concat (d ++ [[]]) = List.concat d.
Proof. rewrite concat_app. simpl. now rewrite app_nil_r. Qed.

Lemma concat_drawOn_last (d : PDFDocument) (p : nat) (ops : list PageOp) :
  S p = List.length d -> List.concat (drawOn p ops d) = List.concat d ++ ops.
Proof.
  intros Hp. destruct (exists_last (l := d)) as (d' & pg & ->).
  { intros ->. discriminate. }
  rewrite length_app in Hp. simpl in Hp.
  replace p with (List.length d') by lia.
  rewrite drawOn_last, !concat_app. simpl.
  now rewrite !app_nil_r, app_assoc.
Qed.

Lemma breaks_order i line st :
  OnLastPage st ->
  OnLastPage (breaks i line st)
  /\ List.concat (doc (breaks i line st)) = List.concat (doc st).
Proof.
  unfold OnLastPage. intros H. unfold_breaks.
  split_ifs; fields; rewrite ?concat_addPage, ?length_app; simpl;
    split; (reflexivity || lia).
Qed.

Lemma place_order i line st :
  OnLastPage st ->
  OnLastPage (place i line st)
  /\ opTexts (List.concat (doc (place i line st)))
     = opTexts (List.concat (doc st))
       ++ drawnTexts (nth i isLastLine false) line.
Proof.
  unfold OnLastPage. intros H. unfold placeLine, drawnTexts.
  destruct (String.eqb line EmptyString).
  - unfold paragraphBreak. split_ifs; fields; rewrite app_nil_r; auto.
  - unfold drawLine.
    split_ifs; fields;
      rewrite length_drawOn, concat_drawOn_last, opTexts_app,
        opTexts_drawJustifiedLine by exact H;
      auto.
Qed.

Lemma run_order ls : forall k st,
  OnLastPage st ->
  OnLastPage (run k ls st)
  /\ opTexts (List.concat (doc (run k ls st)))
     = opTexts (List.concat (doc st)) ++ textsFrom isLastLine k ls.
Proof.
  induction ls as [|l ls IH]; intros k st H; simpl.
  - now rewrite app_nil_r.
  - destruct (breaks_order k l st H) as [H1 E1].
    destruct (place_order k l _ H1) as [H2 E2].
    destruct (IH (S k) (step k l st)) as [H3 E3]; [exact H2|].
    split; [exact H3|].
    rewrite E3. unfold processLine. fields.
    now rewrite E2, E1, app_assoc.
Qed.

Lemma engine_order (d : PDFDocument) (p : nat) :
  S p = List.length d ->
  opTexts (List.concat (doc (drawTextLines lines margin pageHeight fontSize
                          chapterTitleFontSize font lineHeight
                          paragraphBreakHeight textMaxWidth
                          newChapterIndices isLastLine isFirstLine d p)))
  = opTexts (List.concat d) ++ textsFrom isLastLine 0 lines.
Proof.
  intros Hp. unfold drawTextLines.
  now apply (run_order lines 0 (initialLayout margin pageHeight d p)).
Qed.

(** Started on the last page of a document, [drawTextLines] draws the
    lines once each and in order: read page after page, the texts it adds
    are, line after line, nothing for an empty line, the line itself for a
    paragraph's last line and its words otherwise; page breaks lose and
    repeat nothing. *)
Theorem drawTextLines_draws_lines_in_order (d : PDFDocument) (p : nat) :
  S p = List.length d ->
  opTexts (List.concat (doc (drawTextLines lines margin pageHeight fontSize
                          chapterTitleFontSize font lineHeight
                          paragraphBreakHeight textMaxWidth
                          newChapterIndices isLastLine isFirstLine d p)))
  = opTexts (List.concat d) ++ textsFrom isLastLine 0 lines.
Proof.
  apply engine_order.
Qed.

End OrderFacts.

Lemma wordsOf_textsFrom (isLastLine : list bool) (ls : list string) :
  forall i, flat_map lineWords (textsFrom isLastLine i ls) = wordsOf ls.
Proof.
  induction ls as [|l ls IH]; intros i; simpl; [reflexivity|].
  rewrite flat_map_app, IH. f_equal. unfold drawnTexts.
  destruct (String.eqb_spec l EmptyString) as [->|Hne]; [reflexivity|].
  destruct (nth i isLastLine false); simpl; [now rewrite app_nil_r|].
  unfold lineWords at 2.
  pose proof (split_lacks " " l) as Hl.
  induction Hl as [|w ws Hw _ IHw]; simpl; [reflexivity|].
  rewrite IHw. unfold lineWords. rewrite split_lacking by assumption.
  simpl. destruct (truthy w); reflexivity.
Qed.

Lemma splitWs_noWhitespace (s : string) : forall inGap,
  Forall (fun word => noWhitespace word = true) (splitWs inGap s).
Proof.
  induction s as [|c s IH]; intros inGap; simpl.
  - constructor; [reflexivity | constructor].
  - destruct (isWhitespace c) eqn:Hw.
    + destruct inGap; [apply IH|].
      constructor; [reflexivity | apply IH].
    + specialize (IH false). destruct (splitWs false s) as [|w ws].
      * constructor; [simpl; now rewrite Hw | constructor].
      * inversion IH; subst.
        constructor; [simpl; now rewrite Hw | assumption].
Qed.

(** From the text to the pages: before the page numbers are added, the
    non-empty words drawn on the pages of [createPDF], read in page order,
    are exactly the words of the capitalised paragraphs in order. Line
    breaking, orphan correction and pagination lose, repeat and reorder
    nothing, for every text, font and page size. *)
Theorem createPDF_draws_every_word
    (font : PDFFont) (width height : Q) (textContent : string) :
  flat_map lineWords
    (opTexts (List.concat (doc (laidOut font width height textContent))))
  = filter truthy
      (List.concat
         (map splitWhitespace
            (map capitalizeChapterTitle
               (splitTextIntoParagraphs
                  (insertSpaceAfterDash textContent))))).
Proof.
  unfold laidOut.
  rewrite engine_order by reflexivity.
  simpl opTexts at 1. simpl app.
  rewrite wordsOf_textsFrom. unfold documentLines.
  apply createLines_words.
  apply Forall_forall. intros ws Hin.
  apply in_map_iff in Hin as (paragraph & <- & _).
  apply splitWs_noWhitespace.
Qed.

(* ================================================================== *)
(** ** The engine keeps every line between the margins *)
(* ================================================================== *)

Section BandFacts.
Variable lines : list string.
Variables margin pageHeight fontSize chapterTitleFontSize : Q.
Variable font : PDFFont.
Variables lineHeight paragraphBreakHeight textMaxWidth : Q.
Variable newChapterIndices : list nat.
Variables isLastLine isFirstLine : list bool.

Hypothesis lineHeight_nonneg : (0 <= lineHeight)%Q.
Hypothesis paragraphBreakHeight_nonneg : (0 <= paragraphBreakHeight)%Q.
Hypothesis page_holds_a_line :
  (lineHeight <= pageHeight - margin - margin)%Q.

Local Abbreviation lo := (margin + lineHeight)%Q.
Local Abbreviation hi := (pageHeight - margin)%Q.
Local Abbreviation Inv st :=
  (WithinMargins margin lo hi (doc st) (yPos st) (remainingSpace st)).
Local Abbreviation breaks :=
  (pageBreaks lines margin pageHeight lineHeight newChapterIndices
     isLastLine isFirstLine).
Local Abbreviation place :=
  (placeLine margin fontSize chapterTitleFontSize font lineHeight
     paragraphBreakHeight textMaxWidth newChapterIndices isLastLine
     isFirstLine).
Local Abbreviation run :=
  (drawFrom lines margin pageHeight fontSize chapterTitleFontSize font
     lineHeight paragraphBreakHeight textMaxWidth newChapterIndices
     isLastLine isFirstLine).

Lemma within_advance d y r h :
  (0 <= h)%Q ->
  WithinMargins margin lo hi d y r ->
  WithinMargins margin lo hi d (y - h)%Q (r - h)%Q.
Proof.
  intros Hh (Hb & Hy & Hd). split; [lra | split; [lra | exact Hd]].
Qed.

Lemma within_newPage d y r :
  WithinMargins margin lo hi d y r ->
  WithinMargins margin lo hi (d ++ [[]]) hi (pageHeight - margin - margin)%Q.
Proof.
  intros (_ & _ & Hd). split; [lra | split; [lra |]].
  apply Forall_app. split; [exact Hd | repeat constructor].
Qed.

Lemma Forall_assign {A} (P : A -> Prop) i v (xs : list A) :
  Forall P xs -> P v -> Forall P (assign i v xs).
Proof.
  intros H Hv. revert i.
  induction H as [|x xs Hx Hxs IH]; intros [|i]; simpl; constructor; auto.
Qed.

Lemma within_draw d y r p ops :
  Forall (InBand lo hi) ops ->
  WithinMargins margin lo hi d y r ->
  WithinMargins margin lo hi (drawOn p ops d) y r.
Proof.
  intros Hops (Hb & Hy & Hd). split; [exact Hb | split; [exact Hy |]].
  apply Forall_assign; [exact Hd|].
  apply Forall_app. split; [|exact Hops].
  destruct (Nat.lt_ge_cases p (List.length d)) as [Hp|Hp].
  - eapply Forall_forall in Hd; [exact Hd | now apply nth_In].
  - rewrite nth_overflow by exact Hp. constructor.
Qed.

Lemma drawWords_at y cs sp a words : forall x,
  Forall (fun op => match op with
                    | DrawText _ _ y' _ => y' = y
                    | DrawRectangle _ _ _ _ => True
                    end)
    (drawWords y font cs sp a words x).
Proof.
  induction words as [|w ws IH]; intros x; simpl; constructor; auto.
Qed.

Lemma drawJustifiedLine_in_band y line isLast isFirst isTitle :
  (lo <= y)%Q -> (y <= hi)%Q ->
  Forall (InBand lo hi)
    (drawJustifiedLine margin y fontSize chapterTitleFontSize font
       textMaxWidth line isLast isFirst isTitle).
Proof.
  intros Hlo Hhi. unfold drawJustifiedLine. destruct isLast.
  - repeat constructor; assumption.
  - eapply Forall_impl; [|apply drawWords_at].
    intros [t x y' sz|]; simpl; [intros ->; auto | auto].
Qed.

Lemma Qltb_false (a b : Q) : Qltb a b = false -> (b <= a)%Q.
Proof.
  unfold Qltb. intros H. apply negb_false_iff in H.
  now apply Qle_bool_iff.
Qed.

(** The page-break rules leave room for the line. *)
Lemma breaks_band i line st :
  Inv st ->
  Inv (breaks i line st)
  /\ (lineHeight <= remainingSpace (breaks i line st))%Q.
Proof.
  intros H. unfold pageBreaks.
  assert (H1 : Inv (preventWidows margin pageHeight lineHeight isFirstLine i
                 (preventOrphans margin pageHeight lineHeight
                    (lookahead lines isLastLine isFirstLine i
                       (chapterBreak margin pageHeight newChapterIndices
                          i line st))))).
  { unfold preventWidows, preventOrphans, lookahead, chapterBreak.
    split_ifs; fields; eauto using within_newPage. }
  revert H1. generalize (preventWidows margin pageHeight lineHeight
    isFirstLine i (preventOrphans margin pageHeight lineHeight
      (lookahead lines isLastLine isFirstLine i
         (chapterBreak margin pageHeight newChapterIndices i line st)))).
  intros s Hs. unfold ensureSpace.
  destruct (Qltb (remainingSpace s) lineHeight) eqn:E; fields.
  - split; [eauto using within_newPage | exact page_holds_a_line].
  - split; [exact Hs | now apply Qltb_false].
Qed.

Lemma place_band i line st :
  Inv st -> (lineHeight <= remainingSpace st)%Q -> Inv (place i line st).
Proof.
  intros H Hroom.
  assert (Hops : Forall (InBand lo hi)
            (drawJustifiedLine margin (yPos st) fontSize chapterTitleFontSize
               font textMaxWidth line (nth i isLastLine false)
               (nth i isFirstLine false)
               (isChapterTitleAt newChapterIndices i line))).
  { destruct H as (Hb & Hy & _).
    apply drawJustifiedLine_in_band; [lra | exact Hy]. }
  unfold placeLine, paragraphBreak, drawLine.
  split_ifs; fields;
    repeat (apply within_advance;
            [first [exact lineHeight_nonneg
                   | exact paragraphBreakHeight_nonneg]|]);
    try apply within_draw; assumption.
Qed.

Lemma run_band ls : forall k st, Inv st -> Inv (run k ls st).
Proof.
  induction ls as [|l ls IH]; intros k st H; simpl; [exact H|].
  apply IH. unfold processLine. fields.
  destruct (breaks_band k l st H) as [H1 H2].
  now apply place_band.
Qed.

(** In exact arithmetic, on a page that holds at least one line, with line
    height and paragraph-break height not negative, every text the engine
    draws has its baseline at least one line height above the bottom
    margin and not above the top margin. *)
Lemma engine_band (d : PDFDocument) (p : nat) :
  AllInBand lo hi d ->
  AllInBand lo hi
    (doc (drawTextLines lines margin pageHeight fontSize
            chapterTitleFontSize font lineHeight paragraphBreakHeight
            textMaxWidth newChapterIndices isLastLine isFirstLine d p)).
Proof.
  intros Hd. unfold drawTextLines.
  apply (run_band lines 0 (initialLayout margin pageHeight d p)).
  simpl. split; [lra | split; [lra | exact Hd]].
Qed.

End BandFacts.

(* ================================================================== *)
(** ** Page numbers *)
(* ================================================================== *)

Section OverlayFacts.
Variable pageNumberFont : PDFFont.
Variable width : Q.


End OverlayFacts.

(* ================================================================== *)
(** ** Blank input *)
(* ================================================================== *)

Section BlankFacts.

Lemma allWhitespace_no_dash (s : string) :
  allWhitespace s = true -> insertSpaceAfterDash s = s.
Proof.
  induction s as [|c s IH]; [reflexivity|]. intros H.
  simpl in H. apply andb_true_iff in H as [Hc Hs].
  specialize (IH Hs).
  destruct c as [[] [] [] [] [] [] [] []]; try discriminate Hc;
    simpl; now rewrite IH.
Qed.

Lemma allWhitespace_split (sep : ascii) (s : string) :
  allWhitespace s = true ->
  Forall (fun w => allWhitespace w = true) (split sep s).
Proof.
  induction s as [|c s IH]; simpl; intros H.
  - repeat constructor.
  - apply andb_true_iff in H as [Hc Hs]. specialize (IH Hs).
    destruct (Ascii.eqb c sep).
    + constructor; [reflexivity | exact IH].
    + destruct (split sep s) as [|w ws]; inversion IH; subst;
        constructor; simpl; try rewrite Hc; auto.
Qed.

Lemma allWhitespace_not_heading (p : string) :
  allWhitespace p = true -> capitalizeChapterTitle p = p.
Proof.
  intros H. unfold capitalizeChapterTitle.
  destruct (chapterMatch p) as [[num title]|] eqn:Hm; [|reflexivity].
  apply chapterMatch_sound in Hm as (ds & rest & _ & -> & _).
  discriminate H.
Qed.

Lemma allWhitespace_words (s : string) : forall inGap,
  allWhitespace s = true ->
  Forall (fun w => w = EmptyString) (splitWs inGap s).
Proof.
  induction s as [|c s IH]; intros inGap H; simpl.
  - repeat constructor.
  - simpl in H. apply andb_true_iff in H as [Hc Hs]. rewrite Hc.
    destruct inGap; [now apply IH|].
    constructor; [reflexivity | now apply IH].
Qed.

Lemma wrapAll_blank font fontSize textMaxWidth paragraphs :
  EmptyFits font fontSize textMaxWidth ->
  Forall (Forall (fun w => w = EmptyString)) paragraphs ->
  wrapAll font fontSize textMaxWidth paragraphs = emptyStream.
Proof.
  intros Hfit. unfold wrapAll. generalize emptyStream.
  induction paragraphs as [|wa ps IH]; intros o Hall; simpl; [reflexivity|].
  inversion Hall; subst.
  rewrite wrapParagraph_blank by assumption. now apply IH.
Qed.

(** A text made of blank lines only (line feeds and other whitespace, or
    nothing at all) gives a document of one page that carries nothing but
    the page number 1, provided the empty string fits the text column. *)
Theorem createPDF_of_blank_text
    (font : PDFFont) (width height : Q) (textContent : string) :
  allWhitespace textContent = true ->
  EmptyFits font bodyTextStyle.size (textMaxWidth width) ->
  createPDF font width height textContent = [stamp font width 0].
Proof.
  intros Hws Hfit.
  assert (Hl : documentLines font width textContent = emptyStream).
  { unfold documentLines, createLines.
    rewrite allWhitespace_no_dash by exact Hws.
    rewrite wrapAll_blank; [reflexivity | exact Hfit |].
    apply Forall_forall. intros ws Hin.
    apply in_map_iff in Hin as (p & <- & Hin).
    apply in_map_iff in Hin as (q & <- & Hin).
    pose proof (allWhitespace_split "010" textContent Hws) as Hall.
    eapply Forall_forall in Hall; [|exact Hin].
    rewrite allWhitespace_not_heading by exact Hall.
    now apply allWhitespace_words. }
  unfold createPDF, laidOut. rewrite Hl. reflexivity.
Qed.

End BlankFacts.

(* ================================================================== *)
(** ** The space after a dash *)
(* ================================================================== *)

Section DashFacts.

Local Abbreviation dash tail :=
  (String "226" (String "128" (String "148" tail))).

(** The equation of [insertSpaceAfterDash], with the tests on the
    characters written as comparisons. *)
Lemma insertSpaceAfterDash_eq (c : ascii) (rest : string) :
  insertSpaceAfterDash (String c rest)
  = match rest with
    | String d (String e rest') =>
        if Ascii.eqb c "226" && Ascii.eqb d "128" && Ascii.eqb e "148"
        then dash (if match rest' with
                       | String x _ => isWhitespace x
                       | EmptyString => false
                       end
                   then insertSpaceAfterDash rest'
                   else String " " (insertSpaceAfterDash rest'))
        else String c (insertSpaceAfterDash rest)
    | _ => String c (insertSpaceAfterDash rest)
    end.
Proof.
  by_bits c; try (destruct rest as [|d [|e rest']]; reflexivity).
  destruct rest as [|d [|e rest']]; try reflexivity;
    by_bits d; try reflexivity.
  by_bits e; reflexivity.
Qed.

Lemma insertSpaceAfterDash_head (c : ascii) (rest : string) :
  exists tail, insertSpaceAfterDash (String c rest) = String c tail.
Proof.
  rewrite insertSpaceAfterDash_eq.
  destruct rest as [|d [|e rest']]; try (eexists; reflexivity).
  destruct (Ascii.eqb c "226" && Ascii.eqb d "128" && Ascii.eqb e "148")
    eqn:E; [|eexists; reflexivity].
  apply andb_true_iff in E as [E _]. apply andb_true_iff in E as [E _].
  apply Ascii.eqb_eq in E. subst c. eexists; reflexivity.
Qed.

Lemma insertSpaceAfterDash_head2 (d e : ascii) (rest : string) :
  exists tail,
    insertSpaceAfterDash (String d (String e rest))
    = String d (String e tail).
Proof.
  rewrite insertSpaceAfterDash_eq. destruct rest as [|x rest'].
  - rewrite insertSpaceAfterDash_eq. eexists; reflexivity.
  - destruct (Ascii.eqb d "226" && Ascii.eqb e "128" && Ascii.eqb x "148")
      eqn:E.
    + apply andb_true_iff in E as [E _]. apply andb_true_iff in E as [E1 E2].
      apply Ascii.eqb_eq in E1, E2. subst d e. eexists; reflexivity.
    + destruct (insertSpaceAfterDash_head e (String x rest')) as [t ->].
      eexists; reflexivity.
Qed.

Lemma insertSpaceAfterDash_fixed (n : nat) : forall text,
  String.length text <= n ->
  insertSpaceAfterDash (insertSpaceAfterDash text)
  = insertSpaceAfterDash text.
Proof.
  induction n as [|n IH]; intros [|c rest] Hlen; simpl in Hlen;
    try reflexivity; [lia|].
  destruct rest as [|d [|e rest']].
  - assert (E : insertSpaceAfterDash (String c EmptyString)
                = String c EmptyString)
      by now rewrite insertSpaceAfterDash_eq.
    now rewrite !E.
  - assert (E : insertSpaceAfterDash (String c (String d EmptyString))
                = String c (String d EmptyString))
      by now rewrite !insertSpaceAfterDash_eq.
    now rewrite !E.
  - rewrite (insertSpaceAfterDash_eq c (String d (String e rest'))).
    destruct (Ascii.eqb c "226" && Ascii.eqb d "128" && Ascii.eqb e "148")
      eqn:E.
    + assert (Hr : insertSpaceAfterDash (insertSpaceAfterDash rest')
                   = insertSpaceAfterDash rest')
        by (apply IH; simpl in Hlen; lia).
      destruct rest' as [|x rest'']; [reflexivity|].
      destruct (insertSpaceAfterDash_head x rest'') as [t Ht].
      destruct (isWhitespace x) eqn:Hx.
      * rewrite Ht in *. rewrite (insertSpaceAfterDash_eq "226").
        simpl andb. cbv iota. rewrite Hx. now rewrite Hr.
      * rewrite (insertSpaceAfterDash_eq "226").
        simpl andb. cbv iota. cbn [isWhitespace nat_of_ascii].
        change (isWhitespace " ") with true. cbv iota.
        rewrite (insertSpaceAfterDash_eq " ").
        rewrite Ht in *.
        destruct t as [|y t']; [now rewrite Hr|].
        simpl andb. cbv iota. now rewrite Hr.
    + destruct (insertSpaceAfterDash_head2 d e rest') as [t Ht].
      assert (Hr : insertSpaceAfterDash
                     (insertSpaceAfterDash (String d (String e rest')))
                   = insertSpaceAfterDash (String d (String e rest')))
        by (apply IH; simpl in *; lia).
      rewrite Ht in *. rewrite (insertSpaceAfterDash_eq c), E.
      now rewrite Hr.
Qed.

(** Inserting the space a second time changes nothing: a second pass
    finds no dash to add a space to. *)
Theorem insertSpaceAfterDash_idempotent (text : string) :
  insertSpaceAfterDash (insertSpaceAfterDash text)
  = insertSpaceAfterDash text.
Proof. now apply (insertSpaceAfterDash_fixed (String.length text)). Qed.

End DashFacts.

(* ================================================================== *)
(** ** Short paragraphs *)
(* ================================================================== *)

Section ParagraphFacts.
Variable lines : list string.
Variables margin pageHeight fontSize chapterTitleFontSize : Q.
Variable font : PDFFont.
Variables lineHeight paragraphBreakHeight textMaxWidth : Q.
Variable newChapterIndices : list nat.
Variables isLastLine isFirstLine : list bool.

Hypothesis lineHeight_nonneg : (0 <= lineHeight)%Q.
Hypothesis page_holds_three_lines :
  (3 * lineHeight <= pageHeight - margin - margin)%Q.

Local Abbreviation breaks :=
  (pageBreaks lines margin pageHeight lineHeight newChapterIndices
     isLastLine isFirstLine).
Local Abbreviation place :=
  (placeLine margin fontSize chapterTitleFontSize font lineHeight
     paragraphBreakHeight textMaxWidth newChapterIndices isLastLine
     isFirstLine).
Local Abbreviation step :=
  (processLine lines margin pageHeight fontSize chapterTitleFontSize font
     lineHeight paragraphBreakHeight textMaxWidth newChapterIndices
     isLastLine isFirstLine).
Local Abbreviation run :=
  (drawFrom lines margin pageHeight fontSize chapterTitleFontSize font
     lineHeight paragraphBreakHeight textMaxWidth newChapterIndices
     isLastLine isFirstLine).
Local Abbreviation count n := (inject_Z (Z.of_nat n)).

Lemma Qltb_ge (a b : Q) : (b <= a)%Q -> Qltb a b = false.
Proof.
  intros H. unfold Qltb. apply negb_false_iff. now apply Qle_bool_iff.
Qed.

Lemma lines_fit (n : nat) :
  S n <= 3 ->
  (lineHeight <= count (S n) * lineHeight)%Q
  /\ (count (S n) * lineHeight <= 3 * lineHeight)%Q
  /\ (count (S n) * lineHeight == count n * lineHeight + lineHeight)%Q.
Proof.
  intros H. destruct n as [|[|[|n]]]; [| | |lia];
    unfold inject_Z; simpl Z.of_nat;
    (split; [lra | split; [lra | ring]]).
Qed.

(** Every step keeps [ColonOpen]. *)
Lemma breaks_colonOpen k i line st :
  ColonOpen k st -> ColonOpen k (breaks i line st).
Proof.
  unfold ColonOpen. unfold_breaks. split_ifs; fields; auto.
Qed.

Lemma place_colonOpen k line st :
  ColonOpen k st -> ColonOpen (S k) (place k line st).
Proof.
  unfold ColonOpen. intros [H1 H2]. unfold_place.
  repeat match goal with
         | |- context [if ?c then _ else _] => destruct c eqn:?
         end; fields;
    repeat match goal with
           | H : _ && _ = true |- _ => apply andb_true_iff in H as [? ?]
           | H : (_ <? _)%Z = false |- _ => apply Z.ltb_ge in H
           | H : (_ <? _)%Z = true |- _ => apply Z.ltb_lt in H
           | H : (_ <=? _)%Z = true |- _ => apply Z.leb_le in H
           | H : (_ <=? _)%Z = false |- _ => apply Z.leb_gt in H
           end;
    split; try lia; try discriminate; try congruence; intros Hc;
    try (specialize (H2 Hc)); try lia;
    match goal with
    | H : colonEncountered _ && _ = false |- _ =>
        rewrite Hc in H; simpl in H; apply Z.ltb_ge in H
    end; lia.
Qed.

Lemma run_colonOpen ls : forall k st,
  ColonOpen k st -> ColonOpen (k + List.length ls) (run k ls st).
Proof.
  induction ls as [|l ls IH]; intros k st H; simpl.
  - now rewrite Nat.add_0_r.
  - replace (k + S (List.length ls)) with (S k + List.length ls) by lia.
    apply IH. unfold processLine.
    destruct (place_colonOpen k l (breaks k l st)) as [H1 H2];
      [now apply breaks_colonOpen|].
    split; fields; assumption.
Qed.

(** The texts on the current page after a line is drawn on it. *)
Lemma page_texts_draw st ops :
  OnLastPage st ->
  opTexts (nth (page st) (drawOn (page st) ops (doc st)) [])
  = opTexts (nth (page st) (doc st) []) ++ opTexts ops.
Proof.
  unfold OnLastPage. intros H.
  rewrite nth_drawOn, Nat.eqb_refl.
  replace (page st <? List.length (doc st)) with true
    by (symmetry; apply Nat.ltb_lt; lia).
  simpl. apply opTexts_app.
Qed.

(** A line of running text, placed with a line of room or more: it is
    drawn on the current page, and unless it ends its paragraph it leaves
    room for the lines that remain. *)
Lemma place_plain k line s n :
  String.eqb line EmptyString = false ->
  endsWith ":" line = false ->
  includes newChapterIndices k = false ->
  remainingLinesInParagraph s = Z.of_nat (S n) ->
  S n <= 3 ->
  (count (S n) * lineHeight <= remainingSpace s)%Q ->
  (nth k isLastLine false = false ->
   colonEncountered s = true ->
   (lastLineOfParagraph s <= afterColonLineIndex s)%Z) ->
  OnLastPage s ->
  let s' := nextLineIndex (place k line s) in
  page s' = page s
  /\ OnLastPage s'
  /\ lineIndex s' = S (lineIndex s)
  /\ opTexts (nth (page s) (doc s') [])
     = opTexts (nth (page s) (doc s) [])
       ++ drawnTexts (nth k isLastLine false) line
  /\ (nth k isLastLine false = false ->
      remainingLinesInParagraph s' = Z.of_nat n
      /\ (count n * lineHeight <= remainingSpace s')%Q
      /\ (colonEncountered s' = true ->
          (lastLineOfParagraph s' <= afterColonLineIndex s')%Z)).
Proof.
  intros Hne Hcolon Hinc Hrem Hn Hspace Hinv Hlast. cbv zeta.
  destruct (lines_fit n Hn) as (F1 & F2 & F3).
  unfold placeLine. rewrite Hne.
  unfold drawLine, isChapterTitleAt, drawnTexts.
  rewrite Hinc, Hcolon, Hne. simpl andb. cbv zeta.
  destruct (nth k isLastLine false) eqn:HL.
  - split_ifs; unfold OnLastPage in *; fields;
      rewrite ?length_drawOn, ?page_texts_draw,
        ?opTexts_drawJustifiedLine by exact Hlast;
      (split; [reflexivity | split; [exact Hlast | split; [reflexivity |
         split; [reflexivity | discriminate]]]]).
  - fields.
    assert (Hq : colonEncountered s
                 && (afterColonLineIndex s <? lastLineOfParagraph s)%Z
                 = false).
    { destruct (colonEncountered s) eqn:Hc; [|reflexivity].
      simpl. apply Z.ltb_ge. now apply Hinv. }
    rewrite Hq. fields.
    rewrite page_texts_draw, opTexts_drawJustifiedLine by exact Hlast.
    unfold OnLastPage. fields. rewrite length_drawOn.
    split; [reflexivity | split; [exact Hlast | split; [reflexivity |
      split; [reflexivity |]]]].
    intros _. rewrite Hrem.
    split; [lia | split; [lra |]].
    now apply Hinv.
Qed.

(** After a paragraph's first line no rule starts a page, while the
    counted lines fit. *)
Lemma breaks_inside k line s n :
  nth k isFirstLine false = false ->
  includes newChapterIndices k = false ->
  lineIndex s = k ->
  remainingLinesInParagraph s = Z.of_nat (S n) ->
  S n <= 3 ->
  (count (S n) * lineHeight <= remainingSpace s)%Q ->
  breaks k line s = s.
Proof.
  intros Hf Hinc Hidx Hrem Hn Hspace.
  destruct (lines_fit n Hn) as (F1 & F2 & F3).
  unfold pageBreaks, chapterBreak, isChapterTitleAt.
  rewrite Hidx, Hinc. simpl.
  unfold lookahead. rewrite Hf.
  unfold preventOrphans, orphanCondition. rewrite Hrem.
  rewrite (Qltb_ge _ _ Hspace), andb_false_r.
  unfold preventWidows. rewrite Hf. simpl.
  unfold ensureSpace. rewrite Qltb_ge by lra. reflexivity.
Qed.

(** Where the counter reads three lines or fewer once the lookahead has
    run, the rules leave room for that many lines, on the current page or
    on a new one. *)
Lemma breaks_room j line st n :
  includes newChapterIndices j = false ->
  lineIndex st = j ->
  remainingLinesInParagraph (lookahead lines isLastLine isFirstLine j st)
  = Z.of_nat (S n) ->
  S n <= 3 ->
  OnLastPage st ->
  OnLastPage (breaks j line st)
  /\ lineIndex (breaks j line st) = j
  /\ remainingLinesInParagraph (breaks j line st) = Z.of_nat (S n)
  /\ (count (S n) * lineHeight <= remainingSpace (breaks j line st))%Q
  /\ colonEncountered (breaks j line st) = colonEncountered st
  /\ afterColonLineIndex (breaks j line st) = afterColonLineIndex st
  /\ lastLineOfParagraph (breaks j line st) = lastLineOfParagraph st.
Proof.
  intros Hinc Hidx Hcount Hn Hlast.
  destruct (lines_fit n Hn) as (F1 & F2 & F3).
  remember (Z.of_nat (S n)) as m eqn:Hm.
  unfold pageBreaks, chapterBreak, isChapterTitleAt.
  rewrite Hidx, Hinc. simpl.
  assert (E : lookahead lines isLastLine isFirstLine j st
              = setRemainingLines m st).
  { rewrite <- Hcount. unfold lookahead.
    destruct (nth j isFirstLine false); [reflexivity | now destruct st]. }
  rewrite E.
  unfold preventOrphans, preventWidows, ensureSpace, OnLastPage in *.
  destruct (orphanCondition lineHeight _) eqn:Ho; fields.
  - replace (3 <? m)%Z with false by (symmetry; apply Z.ltb_ge; lia).
    rewrite andb_false_r. fields.
    rewrite Qltb_ge by lra. fields.
    rewrite length_app. cbn [List.length].
    split; [lia | split; [exact Hidx | split; [reflexivity |
      split; [lra | auto]]]].
  - unfold orphanCondition in Ho. fields.
    replace (m <=? 3)%Z with true in Ho
      by (symmetry; apply Z.leb_le; lia).
    simpl in Ho. apply Qltb_false in Ho.
    replace (3 <? m)%Z with false by (symmetry; apply Z.ltb_ge; lia).
    rewrite andb_false_r. fields.
    rewrite Qltb_ge by lra. fields.
    split; [exact Hlast | split; [exact Hidx | split; [reflexivity |
      split; [exact Ho | auto]]]].
Qed.

(** Every line drawn takes one from the counter, whatever pages are
    started. *)
Lemma step_counter k line s :
  String.eqb line EmptyString = false ->
  remainingLinesInParagraph (step k line s)
  = (remainingLinesInParagraph (lookahead lines isLastLine isFirstLine k s)
     - 1)%Z.
Proof.
  intros Hne. unfold processLine, placeLine. rewrite Hne.
  unfold drawLine, pageBreaks, ensureSpace, preventWidows, preventOrphans,
    chapterBreak, lookahead.
  split_ifs; fields; reflexivity.
Qed.

Lemma run_counter ls : forall k s,
  (forall t, t < List.length ls -> nth (k + t) isFirstLine false = false) ->
  plainFrom newChapterIndices k ls = true ->
  remainingLinesInParagraph (run k ls s)
  = (remainingLinesInParagraph s - Z.of_nat (List.length ls))%Z.
Proof.
  induction ls as [|l ls IH]; intros k s Hf Hplain.
  - simpl. lia.
  - cbn [plainFrom] in Hplain.
    apply andb_true_iff in Hplain as [Hplain Hplain'].
    apply andb_true_iff in Hplain as [Hplain _].
    apply andb_true_iff in Hplain as [Hne _].
    apply negb_true_iff in Hne.
    cbn [drawFrom]. rewrite IH; [| |exact Hplain'].
    + rewrite step_counter by exact Hne. unfold lookahead.
      specialize (Hf 0). rewrite Nat.add_0_r in Hf.
      rewrite Hf by (simpl; lia). cbn [List.length]. lia.
    + intros t Ht. replace (S k + t) with (k + S t) by lia.
      apply Hf. simpl. lia.
Qed.

(** The remaining lines of a paragraph, up to its last, stay on the
    page. *)
Lemma body_run ls : forall k s,
  continues isFirstLine isLastLine k (List.length ls) = true ->
  plainFrom newChapterIndices k ls = true ->
  lineIndex s = k ->
  remainingLinesInParagraph s = Z.of_nat (List.length ls) ->
  List.length ls <= 3 ->
  (count (List.length ls) * lineHeight <= remainingSpace s)%Q ->
  (colonEncountered s = true ->
   (lastLineOfParagraph s <= afterColonLineIndex s)%Z) ->
  OnLastPage s ->
  page (run k ls s) = page s
  /\ opTexts (nth (page s) (doc (run k ls s)) [])
     = opTexts (nth (page s) (doc s) []) ++ textsFrom isLastLine k ls.
Proof.
  induction ls as [|l ls IH]; intros k s Hflags Hplain Hidx Hrem Hn Hspace
    Hinv Hlast.
  - simpl. now rewrite app_nil_r.
  - simpl in Hflags, Hplain.
    apply andb_true_iff in Hflags as [Hflags Hrest].
    apply andb_true_iff in Hflags as [Hf HL].
    apply negb_true_iff in Hf. apply Bool.eqb_prop in HL.
    apply andb_true_iff in Hplain as [Hplain Hplain'].
    apply andb_true_iff in Hplain as [Hplain Hinc].
    apply andb_true_iff in Hplain as [Hne Hcolon].
    apply negb_true_iff in Hne, Hcolon, Hinc.
    cbn [drawFrom textsFrom]. unfold processLine.
    rewrite (breaks_inside k l s (List.length ls)) by assumption.
    destruct (place_plain k l s (List.length ls) Hne Hcolon Hinc Hrem
                Hn Hspace (fun _ => Hinv) Hlast)
      as (Hp & Hlast' & Hidx' & Htexts & Hnext).
    destruct ls as [|l' ls'].
    + simpl. split; [exact Hp|]. now rewrite app_nil_r.
    + assert (HL' : nth k isLastLine false = false) by (rewrite HL; reflexivity).
      destruct (Hnext HL') as (Hrem' & Hspace' & Hinv').
      destruct (IH (S k) (nextLineIndex (place k l s))) as [Hp2 Ht2];
        auto; [congruence | simpl in Hn |- *; lia |].
      rewrite Hp in Hp2, Ht2.
      split; [exact Hp2|].
      now rewrite Ht2, Htexts, app_assoc.
Qed.

(** The flags of a paragraph tell the lookahead where it ends. *)
Lemma paragraph_end n : forall i,
  Bool.eqb (nth i isLastLine false) (n =? 0) = true ->
  continues isFirstLine isLastLine (S i) n = true ->
  (forall m, i <= m < i + n -> nth m isLastLine false = false)
  /\ nth (i + n) isLastLine false = true.
Proof.
  induction n as [|n IH]; intros i HL Hc; apply Bool.eqb_prop in HL.
  - rewrite Nat.add_0_r. split; [intros m Hm; lia | exact HL].
  - cbn [continues] in Hc.
    apply andb_true_iff in Hc as [Hc Hrest].
    apply andb_true_iff in Hc as [_ HL'].
    destruct (IH (S i) HL' Hrest) as [Hnone Hend].
    replace (i + S n) with (S i + n) by lia.
    split; [|exact Hend].
    intros m Hm. destruct (Nat.eq_dec m i) as [->|Hne]; [exact HL|].
    apply Hnone. lia.
Qed.

(** The lines before the last [b] of a paragraph are flagged neither
    first nor last. *)
Lemma continues_app a : forall k b,
  1 <= b ->
  continues isFirstLine isLastLine k (a + b) = true ->
  (forall t, t < a -> nth (k + t) isFirstLine false = false)
  /\ continues isFirstLine isLastLine (k + a) b = true.
Proof.
  induction a as [|a IH]; intros k b Hb Hc.
  - rewrite Nat.add_0_r. split; [intros t Ht; lia | exact Hc].
  - cbn [Nat.add continues] in Hc.
    apply andb_true_iff in Hc as [Hc Hrest].
    apply andb_true_iff in Hc as [Hf _].
    apply negb_true_iff in Hf.
    destruct (IH (S k) b Hb Hrest) as [Hnone Hend].
    replace (k + S a) with (S k + a) by lia.
    split; [|exact Hend].
    intros [|t] Ht; [now rewrite Nat.add_0_r|].
    replace (k + S t) with (S k + t) by lia. apply Hnone. lia.
Qed.

(** With room for them, the line [first] and the lines [others] that end
    its paragraph are drawn on the current page. *)
Lemma ending_run j first others s :
  Bool.eqb (nth j isLastLine false) (List.length others =? 0) = true ->
  continues isFirstLine isLastLine (S j) (List.length others) = true ->
  plainFrom newChapterIndices j (first :: others) = true ->
  S (List.length others) <= 3 ->
  lineIndex s = j ->
  remainingLinesInParagraph s = Z.of_nat (S (List.length others)) ->
  (count (S (List.length others)) * lineHeight <= remainingSpace s)%Q ->
  (colonEncountered s = true ->
   (lastLineOfParagraph s <= afterColonLineIndex s)%Z) ->
  OnLastPage s ->
  let final := run (S j) others (nextLineIndex (place j first s)) in
  S (page final) = List.length (doc final)
  /\ exists before,
       opTexts (nth (page final) (doc final) [])
       = before ++ textsFrom isLastLine j (first :: others).
Proof.
  intros HL Hrest Hplain Hn Hidx Hrem Hspace Hinv Hlast. cbv zeta.
  cbn [plainFrom] in Hplain.
  apply andb_true_iff in Hplain as [Hplain Hplain'].
  apply andb_true_iff in Hplain as [Hplain Hinc].
  apply andb_true_iff in Hplain as [Hne Hcolon].
  apply negb_true_iff in Hne, Hcolon, Hinc.
  destruct (place_plain j first s (List.length others) Hne Hcolon Hinc
              Hrem Hn Hspace (fun _ => Hinv) Hlast)
    as (Hp1 & Hlast1 & Hidx1 & Ht1 & Hnext1).
  set (s1 := nextLineIndex (place j first s)) in *.
  destruct others as [|second others'].
  - cbn [drawFrom textsFrom]. split; [exact Hlast1|].
    exists (opTexts (nth (page s) (doc s) [])).
    now rewrite Hp1, Ht1, app_nil_r.
  - apply Bool.eqb_prop in HL. cbn [List.length Nat.eqb] in HL.
    destruct (Hnext1 HL) as (Hrem1 & Hspace1 & Hinv1).
    destruct (body_run (second :: others') (S j) s1) as [Hp2 Ht2]; auto;
      [congruence | cbn [List.length] in *; lia |].
    destruct (run_order lines margin pageHeight fontSize chapterTitleFontSize
                font lineHeight paragraphBreakHeight textMaxWidth
                newChapterIndices isLastLine isFirstLine
                (second :: others') (S j) s1 Hlast1) as [Hfin _].
    split; [exact Hfin|].
    exists (opTexts (nth (page s) (doc s) [])).
    rewrite Hp2, Hp1. rewrite Hp1 in Ht2.
    cbn [textsFrom] in Ht2 |- *.
    now rewrite Ht2, Ht1, <- app_assoc.
Qed.

Lemma plainFrom_app l1 : forall k l2,
  plainFrom newChapterIndices k (l1 ++ l2) = true ->
  plainFrom newChapterIndices k l1 = true
  /\ plainFrom newChapterIndices (k + List.length l1) l2 = true.
Proof.
  induction l1 as [|l l1 IH]; intros k l2 H.
  - rewrite Nat.add_0_r. auto.
  - cbn [app plainFrom] in H |- *.
    apply andb_true_iff in H as [H H'].
    destruct (IH (S k) l2 H') as [H1 H2].
    rewrite H, H1. cbn [List.length].
    replace (k + S (List.length l1)) with (S k + List.length l1) by lia.
    auto.
Qed.

(** In exact arithmetic the end of a paragraph is never split: on a page
    that holds three lines, any three lines or fewer that end a paragraph
    of running text ([ending], after the lines [opening] of the same
    paragraph, if any) are drawn on one page, the last page of the
    document once they are placed. *)
Lemma ending_on_one_page
    (pre opening ending post : list string) (d : PDFDocument) (p : nat) :
  lines = pre ++ opening ++ ending ++ post ->
  paragraphAt isFirstLine isLastLine (List.length pre)
    (List.length opening + List.length ending) = true ->
  1 <= List.length ending <= 3 ->
  plainFrom newChapterIndices (List.length pre) (opening ++ ending) = true ->
  S p = List.length d ->
  let final :=
    run 0 (pre ++ opening ++ ending) (initialLayout margin pageHeight d p) in
  S (page final) = List.length (doc final)
  /\ exists before,
       opTexts (nth (page final) (doc final) [])
       = before
         ++ textsFrom isLastLine (List.length pre + List.length opening)
              ending.
Proof.
  intros Hlines Hpar Hn Hplain Hp. cbv zeta.
  rewrite run_app. cbn [Nat.add].
  set (i := List.length pre) in *.
  set (st := run 0 pre (initialLayout margin pageHeight d p)).
  destruct (run_order lines margin pageHeight fontSize chapterTitleFontSize
              font lineHeight paragraphBreakHeight textMaxWidth
              newChapterIndices isLastLine isFirstLine pre 0
              (initialLayout margin pageHeight d p) Hp) as [Hst _].
  fold st in Hst.
  assert (Hopen : ColonOpen i st).
  { apply (run_colonOpen pre 0). split; simpl; [lia | discriminate]. }
  assert (Hidx : lineIndex st = i)
    by (unfold st; now rewrite run_lineIndex).
  destruct ending as [|first others]; [simpl in Hn; lia|].
  cbn [List.length] in Hn.
  assert (Hn' : S (List.length others) <= 3) by lia.
  destruct (plainFrom_app opening i (first :: others) Hplain)
    as [Hplain1 Hplain2].
  assert (Hinc : includes newChapterIndices (i + List.length opening)
                 = false).
  { cbn [plainFrom] in Hplain2.
    apply andb_true_iff in Hplain2 as [Hplain2 _].
    apply andb_true_iff in Hplain2 as [_ Hinc].
    now apply negb_true_iff in Hinc. }
  destruct opening as [|head more].
  - (* the paragraph has three lines or fewer *)
    cbn [List.length Nat.add app] in *. rewrite Nat.add_0_r in *.
    cbn [paragraphAt] in Hpar.
    apply andb_true_iff in Hpar as [Hpar Hrest].
    apply andb_true_iff in Hpar as [Hf HL].
    destruct (paragraph_end (List.length others) i HL Hrest)
      as [Hnone Hend].
    assert (Hcount : remainingLinesInParagraph
                       (lookahead lines isLastLine isFirstLine i st)
                     = Z.of_nat (S (List.length others))).
    { unfold lookahead. rewrite Hf. fields.
      unfold calculateRemainingLinesInParagraph.
      rewrite (scanForLast_least isLastLine _ i i (List.length others)
                 Hnone Hend).
      - f_equal. lia.
      - rewrite Hlines.
        repeat (rewrite length_app || cbn [List.length app]).
        fold i. lia. }
    destruct (breaks_room i first st (List.length others) Hinc Hidx Hcount
                Hn' Hst)
      as (Hlast0 & Hidx0 & Hrem0 & Hspace0 & Ec & Ea & El).
    cbn [drawFrom]. unfold processLine.
    apply ending_run; auto.
    rewrite Ec, Ea, El. apply Hopen.
  - (* the last lines of a longer paragraph *)
    cbn [List.length Nat.add paragraphAt] in Hpar.
    apply andb_true_iff in Hpar as [Hpar Hrest].
    apply andb_true_iff in Hpar as [Hf HL].
    destruct (paragraph_end _ i HL Hrest) as [Hnone Hend].
    destruct (continues_app (List.length more) (S i)
                (S (List.length others)) ltac:(lia) Hrest)
      as [Hmid Hback].
    cbn [continues] in Hback.
    apply andb_true_iff in Hback as [Hback Hrest'].
    apply andb_true_iff in Hback as [Hf' HL'].
    apply negb_true_iff in Hf'.
    rewrite run_app.
    cbn [List.length] in Hinc, Hplain2 |- *.
    replace (i + S (List.length more)) with (S i + List.length more) in *
      by lia.
    set (j := S i + List.length more) in *.
    set (s := run i (head :: more) st).
    assert (Hs : OnLastPage s).
    { apply (run_order lines margin pageHeight fontSize chapterTitleFontSize
               font lineHeight paragraphBreakHeight textMaxWidth
               newChapterIndices isLastLine isFirstLine). exact Hst. }
    assert (Hsopen : ColonOpen j s).
    { replace j with (i + List.length (head :: more))
        by (cbn [List.length]; lia).
      now apply run_colonOpen. }
    assert (Hsidx : lineIndex s = j).
    { unfold s. rewrite run_lineIndex, Hidx. cbn [List.length]. lia. }
    assert (Hcount : remainingLinesInParagraph
                       (lookahead lines isLastLine isFirstLine j s)
                     = Z.of_nat (S (List.length others))).
    { unfold lookahead. rewrite Hf'.
      unfold s. cbn [drawFrom plainFrom] in Hplain1 |- *.
      apply andb_true_iff in Hplain1 as [Hhead Hmore].
      apply andb_true_iff in Hhead as [Hhead _].
      apply andb_true_iff in Hhead as [Hne _].
      apply negb_true_iff in Hne.
      rewrite run_counter by assumption.
      rewrite step_counter by exact Hne.
      unfold lookahead. rewrite Hf. fields.
      unfold calculateRemainingLinesInParagraph.
      rewrite (scanForLast_least isLastLine _ i i _ Hnone Hend).
      - lia.
      - rewrite Hlines.
        repeat (rewrite length_app || cbn [List.length app]).
        fold i. lia. }
    destruct (breaks_room j first s (List.length others) Hinc Hsidx Hcount
                Hn' Hs)
      as (Hlast0 & Hidx0 & Hrem0 & Hspace0 & Ec & Ea & El).
    cbn [drawFrom]. unfold processLine.
    apply ending_run; auto.
    rewrite Ec, Ea, El. apply Hsopen.
Qed.

End ParagraphFacts.

(* ================================================================== *)
(** ** The document only grows *)
(* ================================================================== *)

Section GrowthFacts.
Variable lines : list string.
Variables margin pageHeight fontSize chapterTitleFontSize : Q.
Variable font : PDFFont.
Variables lineHeight paragraphBreakHeight textMaxWidth : Q.
Variable newChapterIndices : list nat.
Variables isLastLine isFirstLine : list bool.

Local Abbreviation breaks :=
  (pageBreaks lines margin pageHeight lineHeight newChapterIndices
     isLastLine isFirstLine).
Local Abbreviation place :=
  (placeLine margin fontSize chapterTitleFontSize font lineHeight
     paragraphBreakHeight textMaxWidth newChapterIndices isLastLine
     isFirstLine).
Local Abbreviation run :=
  (drawFrom lines margin pageHeight fontSize chapterTitleFontSize font
     lineHeight paragraphBreakHeight textMaxWidth newChapterIndices
     isLastLine isFirstLine).

Lemma breaks_pages i line st :
  List.length (doc st)
  + (if includes newChapterIndices (lineIndex st) then 1 else 0)
  <= List.length (doc (breaks i line st)).
Proof.
  unfold_breaks.
  destruct (includes newChapterIndices (lineIndex st));
    rewrite ?orb_true_r;
    split_ifs; fields; rewrite ?length_app; simpl; lia.
Qed.

Lemma run_pages ls : forall k st,
  lineIndex st = k ->
  List.length (doc st) + chapterStarts newChapterIndices k (List.length ls)
  <= List.length (doc (run k ls st)).
Proof.
  unfold chapterStarts.
  induction ls as [|l ls IH]; intros k st Hk; simpl; [lia|].
  pose proof (breaks_pages k l st) as Hb. rewrite Hk in Hb.
  assert (Hstep : lineIndex
                    (processLine lines margin pageHeight fontSize
                       chapterTitleFontSize font lineHeight
                       paragraphBreakHeight textMaxWidth newChapterIndices
                       isLastLine isFirstLine k l st) = S k)
    by (rewrite step_lineIndex; congruence).
  specialize (IH (S k) _ Hstep).
  unfold processLine in IH at 1. fields.
  rewrite place_doc_length in IH.
  destruct (includes newChapterIndices k); simpl; lia.
Qed.

Lemma kept_addPage (d0 d : PDFDocument) :
  (forall q, StartsWith (nth q d0 []) (nth q d [])) ->
  forall q, StartsWith (nth q d0 []) (nth q (d ++ [[]]) []).
Proof.
  intros H q. destruct (Nat.lt_ge_cases q (List.length d)) as [Hq|Hq].
  - rewrite app_nth1 by exact Hq. apply H.
  - destruct (H q) as [rest E]. rewrite nth_overflow in E by exact Hq.
    symmetry in E. apply app_eq_nil in E as [-> _].
    now exists (nth q (d ++ [[]]) []).
Qed.

Lemma kept_drawOn (d0 d : PDFDocument) p ops :
  (forall q, StartsWith (nth q d0 []) (nth q d [])) ->
  forall q, StartsWith (nth q d0 []) (nth q (drawOn p ops d) []).
Proof.
  intros H q. rewrite nth_drawOn.
  destruct ((q =? p) && (p <? List.length d)) eqn:E; [|apply H].
  apply andb_true_iff in E as [E _]. apply Nat.eqb_eq in E. subst q.
  destruct (H p) as [rest ->]. exists (rest ++ ops).
  now rewrite app_assoc.
Qed.

(** The engine only adds to the document: every page it was given keeps
    its content, followed by what is drawn on it, and every chapter start
    among the lines adds a page, whatever else starts one. *)
Theorem drawTextLines_only_adds (d : PDFDocument) (p : nat) :
  let final :=
    drawTextLines lines margin pageHeight fontSize chapterTitleFontSize
      font lineHeight paragraphBreakHeight textMaxWidth newChapterIndices
      isLastLine isFirstLine d p in
  List.length d + chapterStarts newChapterIndices 0 (List.length lines)
  <= List.length (doc final)
  /\ forall q, StartsWith (nth q d []) (nth q (doc final) []).
Proof.
  cbv zeta. unfold drawTextLines. split.
  - now apply (run_pages lines 0 (initialLayout margin pageHeight d p)).
  - apply (run_preserved lines margin pageHeight fontSize
             chapterTitleFontSize font lineHeight paragraphBreakHeight
             textMaxWidth newChapterIndices isLastLine isFirstLine
             (fun d' _ => forall q, StartsWith (nth q d []) (nth q d' []))).
    + intros d' _. apply kept_addPage.
    + intros d' p' ops. apply kept_drawOn.
    + unfold Holds. simpl. intros q. exists []. now rewrite app_nil_r.
Qed.

End GrowthFacts.

(* ================================================================== *)
(** ** The earlier build *)
(* ================================================================== *)

Section EarlierFacts.

(** In the earlier build a paragraph's lines hold that paragraph's words
    and no others, in order: orphan correction is run on one paragraph at
    a time and cannot move a word from one paragraph to the next. *)
Theorem splitParagraphIntoLines_keeps_own_words
    (font : PDFFont) (fontSize textMaxWidth : Q) (paragraph : string) :
  wordsOf (lines (EarlierBuild.splitParagraphIntoLines font fontSize
                    textMaxWidth paragraph))
  = filter truthy (splitWhitespace paragraph).
Proof.
  unfold EarlierBuild.splitParagraphIntoLines. cbn [lines].
  rewrite (proj1 (handleOrphans_keeps _ _)).
  rewrite wrapParagraph_words by apply splitWs_noWhitespace.
  reflexivity.
Qed.

Lemma paragraphIndicesFrom_spec (paragraphs : list string) :
  Forall (fun paragraph => lacks "010" paragraph = true) paragraphs ->
  forall k i,
    In i (EarlierBuild.paragraphIndicesFrom k k paragraphs) <->
    0 < i /\ k <= i
    /\ exists paragraph,
         nth_error paragraphs (i - k) = Some paragraph
         /\ paragraph <> EmptyString.
Proof.
  induction 1 as [|p ps Hp Hps IH]; intros k i.
  - simpl. split; [tauto|].
    intros (_ & _ & q & E & _). now destruct (i - k).
  - cbn [EarlierBuild.paragraphIndicesFrom].
    rewrite (split_lacking _ _ Hp). cbn [List.length].
    rewrite Nat.add_1_r.
    assert (Hrest : In i (EarlierBuild.paragraphIndicesFrom (S k) (S k) ps)
                    <-> 0 < i /\ S k <= i
                        /\ exists q, nth_error (p :: ps) (i - k) = Some q
                                     /\ q <> EmptyString).
    { rewrite IH. split; intros (H0 & Hk & q & E & Hq);
        (split; [exact H0 | split; [exact Hk | exists q; split; [|exact Hq]]]).
      - replace (i - k) with (S (i - S k)) by lia. exact E.
      - replace (i - k) with (S (i - S k)) in E by lia. exact E. }
    destruct ((0 <? k) && negb (String.eqb p EmptyString)) eqn:C.
    + apply andb_true_iff in C as [Ck Cp].
      apply Nat.ltb_lt in Ck. apply negb_true_iff in Cp.
      apply String.eqb_neq in Cp.
      cbn [In]. rewrite Hrest. split.
      * intros [<-|(H0 & Hk & q & E & Hq)].
        -- split; [exact Ck | split; [lia|]]. exists p.
           rewrite Nat.sub_diag. auto.
        -- split; [exact H0 | split; [lia | exists q; auto]].
      * intros (H0 & Hk & q & E & Hq).
        destruct (Nat.eq_dec i k) as [->|Hne]; [now left | right].
        split; [exact H0 | split; [lia | exists q; auto]].
    + rewrite Hrest. split.
      * intros (H0 & Hk & q & E & Hq).
        split; [exact H0 | split; [lia | exists q; auto]].
      * intros (H0 & Hk & q & E & Hq).
        split; [exact H0 | split; [| exists q; auto]].
        destruct (Nat.eq_dec i k) as [->|Hne]; [|lia].
        rewrite Nat.sub_diag in E. injection E as <-.
        apply andb_false_iff in C as [C|C].
        -- apply Nat.ltb_ge in C. lia.
        -- apply negb_false_iff, String.eqb_eq in C. contradiction.
Qed.

(** On paragraphs without line feeds (as [splitTextIntoParagraphs]
    returns them) [getNewParagraphIndices] records index 0, whatever is
    there, and besides it exactly the indices of the non-empty
    paragraphs. *)
Theorem getNewParagraphIndices_marks_nonempty (paragraphs : list string)
    (i : nat) :
  Forall (fun paragraph => lacks "010" paragraph = true) paragraphs ->
  In i (EarlierBuild.getNewParagraphIndices paragraphs) <->
  i = 0
  \/ (0 < i
      /\ exists paragraph,
           nth_error paragraphs i = Some paragraph
           /\ paragraph <> EmptyString).
Proof.
  intros H. unfold EarlierBuild.getNewParagraphIndices. cbn [In].
  rewrite (paragraphIndicesFrom_spec paragraphs H 0 i), Nat.sub_0_r.
  split.
  - intros [<-|(H0 & _ & E)]; [now left | right; auto].
  - intros [->|(H0 & E)]; [now left | right].
    split; [exact H0 | split; [lia | exact E]].
Qed.

End EarlierFacts.

(* ================================================================== *)
(** ** The vertical layout on whole-number geometry *)
(* ================================================================== *)

(** The source computes lengths in doubles. The vertical layout only adds,
    subtracts and compares the margin, the page height, the line height
    and the paragraph-break height, and multiplies the line height by a
    line count; on whole numbers of moderate size ([ExactLayout]) all of
    this is exact, and the decisions and baselines of the model are those
    of the source. *)
Section WholeNumberGeometry.
Variable lines : list string.
Variables margin pageHeight lineHeight paragraphBreakHeight : Z.
Variables fontSize chapterTitleFontSize textMaxWidth : Q.
Variable font : PDFFont.
Variable newChapterIndices : list nat.
Variables isLastLine isFirstLine : list bool.

Local Abbreviation engine :=
  (drawTextLines lines (inject_Z margin) (inject_Z pageHeight) fontSize
     chapterTitleFontSize font (inject_Z lineHeight)
     (inject_Z paragraphBreakHeight) textMaxWidth newChapterIndices
     isLastLine isFirstLine).
Local Abbreviation run :=
  (drawFrom lines (inject_Z margin) (inject_Z pageHeight) fontSize
     chapterTitleFontSize font (inject_Z lineHeight)
     (inject_Z paragraphBreakHeight) textMaxWidth newChapterIndices
     isLastLine isFirstLine).

Lemma inject_Z_nonneg (z : Z) : (0 <= z)%Z -> (0 <= inject_Z z)%Q.
Proof. intros H. unfold Qle. simpl. lia. Qed.

Lemma inject_Z_room (k : Z) :
  (k * lineHeight <= pageHeight - margin - margin)%Z ->
  (inject_Z k * inject_Z lineHeight
   <= inject_Z pageHeight - inject_Z margin - inject_Z margin)%Q.
Proof. intros H. unfold Qle. simpl. lia. Qed.

Lemma AllInBand_bounds (lo lo' hi hi' : Q) (d : PDFDocument) :
  (lo == lo')%Q -> (hi == hi')%Q ->
  AllInBand lo hi d -> AllInBand lo' hi' d.
Proof.
  intros Hlo Hhi H. unfold AllInBand in *.
  eapply Forall_impl; [|exact H]. intros pg Hpg.
  eapply Forall_impl; [|exact Hpg]. intros [t x y sz|x y w h]; simpl; auto.
  now rewrite Hlo, Hhi.
Qed.

(** On whole-number geometry with room for a line between the margins,
    every text the engine draws has its baseline [y] between
    [margin + lineHeight] and [pageHeight - margin], however many lines,
    colons, chapter titles and breaks there are: a baseline is never
    above the top margin's edge nor less than a line height above the
    bottom margin's. *)
Theorem drawTextLines_baselines_between_margins
    (d : PDFDocument) (p : nat) :
  ExactLayout margin pageHeight lineHeight paragraphBreakHeight
    (List.length lines) ->
  (lineHeight <= pageHeight - margin - margin)%Z ->
  AllInBand (inject_Z (margin + lineHeight))
    (inject_Z (pageHeight - margin)) d ->
  AllInBand (inject_Z (margin + lineHeight))
    (inject_Z (pageHeight - margin)) (doc (engine d p)).
Proof.
  intros (_ & Hlh & Hpbh & _) Hroom Hd.
  assert (Hlo : (inject_Z (margin + lineHeight)
                 == inject_Z margin + inject_Z lineHeight)%Q)
    by (rewrite inject_Z_plus; reflexivity).
  assert (Hhi : (inject_Z (pageHeight - margin)
                 == inject_Z pageHeight - inject_Z margin)%Q).
  { unfold Z.sub. rewrite inject_Z_plus, inject_Z_opp. reflexivity. }
  apply (AllInBand_bounds _ _ _ _ _ (Qeq_sym _ _ Hlo) (Qeq_sym _ _ Hhi)).
  apply engine_band.
  - now apply inject_Z_nonneg.
  - now apply inject_Z_nonneg.
  - pose proof (inject_Z_room 1) as H.
    rewrite Qmult_1_l in H. apply H. lia.
  - now apply (AllInBand_bounds _ _ _ _ _ Hlo Hhi).
Qed.

(** On whole-number geometry the end of a paragraph is never split: on a
    page that holds three lines, any three lines or fewer that end a
    paragraph of running text ([ending], after the lines [opening] of the
    same paragraph, if any) are drawn on one page, the last page of the
    document once they are placed. So a paragraph of at most three lines
    is moved to a new page as a whole when it does not fit, and no page
    break falls between the last three lines of a longer one. *)
Theorem paragraph_ending_on_one_page
    (pre opening ending post : list string) (d : PDFDocument) (p : nat) :
  ExactLayout margin pageHeight lineHeight paragraphBreakHeight
    (List.length lines) ->
  (3 * lineHeight <= pageHeight - margin - margin)%Z ->
  lines = pre ++ opening ++ ending ++ post ->
  paragraphAt isFirstLine isLastLine (List.length pre)
    (List.length opening + List.length ending) = true ->
  1 <= List.length ending <= 3 ->
  plainFrom newChapterIndices (List.length pre) (opening ++ ending) = true ->
  S p = List.length d ->
  let final :=
    run 0 (pre ++ opening ++ ending)
      (initialLayout (inject_Z margin) (inject_Z pageHeight) d p) in
  S (page final) = List.length (doc final)
  /\ exists before,
       opTexts (nth (page final) (doc final) [])
       = before
         ++ textsFrom isLastLine (List.length pre + List.length opening)
              ending.
Proof.
  intros (_ & Hlh & _) Hroom Hlines Hpar Hn Hplain Hp.
  apply (ending_on_one_page lines (inject_Z margin) (inject_Z pageHeight)
           fontSize chapterTitleFontSize font (inject_Z lineHeight)
           (inject_Z paragraphBreakHeight) textMaxWidth newChapterIndices
           isLastLine isFirstLine (inject_Z_nonneg _ Hlh)
           (inject_Z_room 3 Hroom) pre opening ending post d p);
    assumption.
Qed.

End WholeNumberGeometry.

(* ================================================================== *)
(** ** The general properties on sample inputs *)
(* ================================================================== *)

Lemma createLines_keeps_words_witness :
  Forall (Forall (fun word => noWhitespace word = true))
    [["a"; "b"; "c"; "d"]; ["e"]]
  /\ wordsOf (lines (createLines monospace 14 100
                       [["a"; "b"; "c"; "d"]; ["e"]]))
     = ["a"; "b"; "c"; "d"; "e"].
Proof.
  assert (H : Forall (Forall (fun word => noWhitespace word = true))
                [["a"; "b"; "c"; "d"]; ["e"]])
    by (repeat constructor).
  split; [exact H|].
  exact (createLines_keeps_words monospace 14 100
           [["a"; "b"; "c"; "d"]; ["e"]] H).
Defined.

Lemma createLines_flags_form_paragraphs_witness :
  Forall (Forall (fun word => hasInk word = true))
    [["a"; "b"; "c"; "d"]; ["e"]]
  /\ ParagraphBlocks (createLines monospace 14 100
                        [["a"; "b"; "c"; "d"]; ["e"]]).
Proof.
  assert (H : Forall (Forall (fun word => hasInk word = true))
                [["a"; "b"; "c"; "d"]; ["e"]])
    by (repeat constructor).
  split; [exact H|].
  exact (createLines_flags_form_paragraphs monospace 14 100
           [["a"; "b"; "c"; "d"]; ["e"]] H).
Defined.

(** The five lines of a paragraph that is split over two pages. *)
Lemma drawTextLines_draws_lines_in_order_witness :
  S 0 = List.length ([[]] : PDFDocument)
  /\ opTexts (List.concat (doc (layOut 280 [] fiveLineParagraph)))
     = ["a"; "b"; "c"; "d"; "e"].
Proof.
  split; [reflexivity|].
  pose proof (drawTextLines_draws_lines_in_order (lines fiveLineParagraph)
                100 280 14 18 monospace 20 10 400 []
                (isLastLine fiveLineParagraph)
                (isFirstLine fiveLineParagraph) [[]] 0 eq_refl) as H.
  exact H.
Defined.

(** A paragraph of five lines on pages of four, with margin 100, page
    height 280, line height 20 and paragraph break 10. *)
Lemma drawTextLines_baselines_between_margins_witness :
  ExactLayout 100 280 20 10 (List.length (lines fiveLineParagraph))
  /\ (20 <= 280 - 100 - 100)%Z
  /\ AllInBand (inject_Z (100 + 20)) (inject_Z (280 - 100)) [[]]
  /\ AllInBand (inject_Z (100 + 20)) (inject_Z (280 - 100))
       (doc (layOut 280 [] fiveLineParagraph)).
Proof.
  assert (H1 : ExactLayout 100 280 20 10
                 (List.length (lines fiveLineParagraph)))
    by (unfold ExactLayout; simpl; lia).
  assert (H2 : (20 <= 280 - 100 - 100)%Z) by lia.
  assert (H3 : AllInBand (inject_Z (100 + 20)) (inject_Z (280 - 100)) [[]])
    by (repeat constructor).
  split; [exact H1 | split; [exact H2 | split; [exact H3|]]].
  exact (drawTextLines_baselines_between_margins (lines fiveLineParagraph)
           100 280 20 10 14 18 400 monospace []
           (isLastLine fiveLineParagraph) (isFirstLine fiveLineParagraph)
           [[]] 0 H1 H2 H3).
Defined.

(** The same paragraph: it is split after its second line, and its last
    three lines are together on the second page. *)
Lemma paragraph_ending_on_one_page_witness :
  let s := fiveLineParagraph in
  ExactLayout 100 280 20 10 (List.length (lines s))
  /\ (3 * 20 <= 280 - 100 - 100)%Z
  /\ lines s = [] ++ ["a"; "b"] ++ ["c"; "d"; "e"] ++ []
  /\ paragraphAt (isFirstLine s) (isLastLine s) 0 (2 + 3) = true
  /\ 1 <= 3 <= 3
  /\ plainFrom [] 0 (["a"; "b"] ++ ["c"; "d"; "e"]) = true
  /\ S (page (layOut 280 [] s)) = List.length (doc (layOut 280 [] s))
  /\ doc (layOut 280 [] s)
     = [ [DrawText "a" 118 180 14; DrawText "b" 100 160 14];
         [DrawText "c" 100 180 14; DrawText "d" 100 160 14;
          DrawText "e" 100 140 14] ]
  /\ exists before,
       opTexts (nth (page (layOut 280 [] s)) (doc (layOut 280 [] s)) [])
       = before ++ ["c"; "d"; "e"].
Proof.
  cbv zeta.
  assert (H1 : ExactLayout 100 280 20 10
                 (List.length (lines fiveLineParagraph)))
    by (unfold ExactLayout; simpl; lia).
  assert (H2 : (3 * 20 <= 280 - 100 - 100)%Z) by lia.
  assert (H3 : 1 <= 3 <= 3) by lia.
  split; [exact H1 | split; [exact H2 | split; [reflexivity |
    split; [reflexivity | split; [exact H3 | split; [reflexivity |]]]]]].
  pose proof (paragraph_ending_on_one_page (lines fiveLineParagraph)
                100 280 20 10 14 18 400 monospace []
                (isLastLine fiveLineParagraph)
                (isFirstLine fiveLineParagraph)
                [] ["a"; "b"] ["c"; "d"; "e"] [] [[]] 0
                H1 H2 eq_refl eq_refl H3 eq_refl eq_refl) as [Hlast Hpage].
  split; [exact Hlast | split; [vm_compute; reflexivity | exact Hpage]].
Defined.


(** Two blank lines and a line of spaces. *)
Lemma createPDF_of_blank_text_witness :
  allWhitespace (newline ++ "  " ++ newline) = true
  /\ EmptyFits monospace bodyTextStyle.size (textMaxWidth 600)
  /\ createPDF monospace 600 800 (newline ++ "  " ++ newline)
     = [stamp monospace 600 0].
Proof.
  assert (H : EmptyFits monospace bodyTextStyle.size (textMaxWidth 600))
    by (vm_compute; discriminate).
  split; [reflexivity | split; [exact H|]].
  exact (createPDF_of_blank_text monospace 600 800
           (newline ++ "  " ++ newline) eq_refl H).
Defined.

Lemma getNewParagraphIndices_marks_nonempty_witness :
  Forall (fun paragraph => lacks "010" paragraph = true) ["a"; EmptyString; "b"]
  /\ (In 2 (EarlierBuild.getNewParagraphIndices ["a"; EmptyString; "b"]) <->
      2 = 0
      \/ (0 < 2
          /\ exists paragraph,
               nth_error ["a"; EmptyString; "b"] 2 = Some paragraph
               /\ paragraph <> EmptyString)).
Proof.
  assert (H : Forall (fun paragraph => lacks "010" paragraph = true)
                ["a"; EmptyString; "b"])
    by (repeat constructor).
  split; [exact H|].
  exact (getNewParagraphIndices_marks_nonempty ["a"; EmptyString; "b"] 2 H).
Defined.
